(** * Rank/tier computation and weighted scoring engine

    A shallow embedding of the counselling engine's core:
    - [ranking.py]: fixed tier scores and [tier_score];
    - [db.py]: [compute_ranks_and_tiers], [_tier_label], [build_master_table];
    - [scoring.py]: [normalize_weights], [compute_final_scores] and
      [apply_tier_filtering_and_scoring].

    Modelling conventions.
    - A pandas DataFrame is a list of records, one record per row, in row
      order.  A column that a left merge may leave empty is an [option].
    - Python and numpy integers are [Z].
    - Floating-point numbers are modelled by the rational they denote,
      in canonical form ([Qc]); NaN is [None].  Arithmetic on them is
      exact: rounding error of the hardware is not part of the model.
      Order and equality of floats are those of the rationals, and the
      tests of [rank / max_rank] against 0.25, 0.5 and 0.75 come out in
      binary64 as they do exactly while [max_rank] is below 2^52.
      The statements about the scoring pipeline concern which rows come
      out, in which order of their own columns, and which cells are empty;
      they do not rest on the digits of a score.  Where the digits are the
      point, [normalize_weights] is also given in binary64 ([Binary64]).
    - Identifiers (district id, college code, branch code, department id)
      are [Z]; only their equality and order are ever used.
    - The pandas primitives the code calls ([groupby(...).max()],
      [rank(method="dense", ascending=False)], [merge(how="left")],
      [sort_values], [Series.max]) are modelled from their documented
      behaviour. *)

From Stdlib Require Import String.
From Stdlib Require Import List ZArith QArith Qcanon Qround Bool Lia.
From Stdlib Require Import Permutation Sorted.
From Stdlib Require PrimFloat.
Import ListNotations.
Open Scope string_scope.
Open Scope Z_scope.

(* ================================================================= *)
(** ** Numbers *)

Module Num.

(** Comparison of floats. *)
Definition leb (x y : Qc) : bool := Qle_bool x y.
Definition eqb (x y : Qc) : bool := Qeq_bool x y.

Definition max (x y : Qc) : Qc := if leb x y then y else x.

(** An integer seen as a float. *)
Definition of_Z (z : Z) : Qc := Q2Qc (inject_Z z).

(** Decimal literal [n / d]. *)
Definition lit (n : Z) (d : positive) : Qc := Q2Qc (n # d).

End Num.

(* ================================================================= *)
(** ** A stable sort

    [sort_values] and the key ordering of [groupby] are stable sorts; the
    model is insertion sort, which keeps equal elements in input order. *)

Section StableSort.

Variable A : Type.
Variable le : A -> A -> bool.

Fixpoint insert (x : A) (l : list A) : list A :=
  match l with
  | [] => [x]
  | y :: l' => if le x y then x :: y :: l' else y :: insert x l'
  end.

Definition stable_sort (l : list A) : list A := fold_right insert [] l.

End StableSort.

Arguments insert {A} le x l.
Arguments stable_sort {A} le l.

(* ================================================================= *)
(** ** ranking.py *)

(** A Python dict with string keys, in insertion order. *)
Fixpoint dict_get (d : list (string * Z)) (k : string) (default : Z) : Z :=
  match d with
  | [] => default
  | (k', v) :: d' => if String.eqb k k' then v else dict_get d' k default
  end.

Definition TIER_SCORES : list (string * Z) :=
  [("Top", 4); ("Best", 3); ("Next-Best", 2); ("Rest", 1)].

Definition ALL_TIERS : list string := ["Top"; "Best"; "Next-Best"; "Rest"].

(** [tier in selected_tiers] for a list of strings. *)
Definition str_in (t : string) (l : list string) : bool :=
  existsb (String.eqb t) l.

(** The cell holding a tier is a string, or empty (NaN) after an unmatched
    merge; NaN is a member of no list of strings. *)
Definition tier_score (tier : option string) (selected_tiers : list string) : Z :=
  match tier with
  | Some t => if str_in t selected_tiers then dict_get TIER_SCORES t 0 else 0
  | None => 0
  end.

(* ================================================================= *)
(** ** db.py: ranks and tiers *)

Record CutoffRecord : Type := mkCutoff {
  District_ID : Z;
  College_code : Z;
  Branch_Code : Z;
  Department_ID : Z;
  Catogery_OC_Cutoff : Qc;
  Year : Z
}.

(** One row of a rank table: the entity key, its best cutoff, its dense
    rank and its tier. *)
Record RankRow : Type := mkRank {
  rr_key : Z;
  max_cutoff : Qc;
  rank : Z;
  tier : string
}.

Definition _tier_label (rank max_rank : Z) : string :=
  let percentile := (Num.of_Z rank / Num.of_Z max_rank)%Qc in
  if Num.leb percentile (Num.lit 25 100) then "Top"
  else if Num.leb percentile (Num.lit 50 100) then "Best"
  else if Num.leb percentile (Num.lit 75 100) then "Next-Best"
  else "Rest".

(** [Series.max()]: the largest entry, NaN ([None]) on an empty column. *)
Definition series_max (s : list Qc) : option Qc :=
  match s with
  | [] => None
  | v :: s' => Some (fold_left Num.max s' v)
  end.

Definition series_max_Z (s : list Z) : option Z :=
  match s with
  | [] => None
  | v :: s' => Some (fold_left Z.max s' v)
  end.

(** [cutoff.groupby(group_col)["Catogery OC Cutoff"].max().reset_index()]:
    one row per distinct key, keys in ascending order, with the largest
    cutoff among the records of that key. *)
Definition group_keys (group_col : CutoffRecord -> Z) (cutoff : list CutoffRecord)
  : list Z :=
  stable_sort Z.leb (nodup Z.eq_dec (map group_col cutoff)).

Definition group_of (group_col : CutoffRecord -> Z) (cutoff : list CutoffRecord)
  (k : Z) : list CutoffRecord :=
  filter (fun r => group_col r =? k) cutoff.

Definition groupby_max (group_col : CutoffRecord -> Z) (cutoff : list CutoffRecord)
  : list (Z * Qc) :=
  flat_map
    (fun k =>
       match series_max (map Catogery_OC_Cutoff (group_of group_col cutoff k)) with
       | Some m => [(k, m)]
       | None => []
       end)
    (group_keys group_col cutoff).

(** [Series.rank(method="dense", ascending=False)]: the rank of an entry
    is the number of distinct values of the column that are at least as
    large; ties share a rank and the next lower value gets the next
    integer. *)
Definition dense_rank_of (s : list Qc) (v : Qc) : Z :=
  Z.of_nat (length (nodup Qc_eq_dec (filter (fun x => Num.leb v x) s))).

Definition rank_dense_desc (s : list Qc) : list Z :=
  map (dense_rank_of s) s.

Definition _rank_and_tier (cutoff : list CutoffRecord)
  (group_col : CutoffRecord -> Z) : list RankRow :=
  let agg := groupby_max group_col cutoff in
  let ranks := rank_dense_desc (map snd agg) in
  match series_max_Z ranks with
  | Some max_rank =>
      map (fun kr => mkRank (fst (fst kr)) (snd (fst kr)) (snd kr)
                       (_tier_label (snd kr) max_rank))
        (combine agg ranks)
  | None => []
  end.

Record Ranks : Type := mkRanks {
  district_ranks : list RankRow;
  department_ranks : list RankRow;
  branch_ranks : list RankRow;
  college_ranks : list RankRow
}.

Definition compute_ranks_and_tiers (cutoff : list CutoffRecord) : Ranks :=
  {| district_ranks := _rank_and_tier cutoff District_ID;
     department_ranks := _rank_and_tier cutoff Department_ID;
     branch_ranks := _rank_and_tier cutoff Branch_Code;
     college_ranks := _rank_and_tier cutoff College_code |}.

(* ================================================================= *)
(** ** db.py: the master table *)

Record DistrictRow : Type := mkDistrict {
  dr_District_ID : Z;
  dr_District : string
}.

Record CollegeRow : Type := mkCollege {
  cr_College_code : Z;
  cr_College_Name : string;
  cr_District_ID : Z
}.

Record BranchRow : Type := mkBranch {
  br_Branch_Code : Z;
  br_Branch_Name : string;
  br_Department_ID : Z
}.

(** A row of the master table: the cutoff record, the columns each
    reference merge adds (the colliding [District ID_col] and
    [Department ID_br] are dropped, so the cutoff-side value stays), and
    the columns of the four rank tables.  The columns one merge adds are
    filled together or empty together. *)
Record MasterRow : Type := mkMaster {
  cutoff_of : CutoffRecord;
  District : option string;
  College_Name : option string;
  Branch_Name : option string;
  district_rt : option RankRow;
  department_rt : option RankRow;
  branch_rt : option RankRow;
  college_rt : option RankRow
}.

Definition district_rank (m : MasterRow) : option Z := option_map rank (district_rt m).
Definition department_rank (m : MasterRow) : option Z := option_map rank (department_rt m).
Definition branch_rank (m : MasterRow) : option Z := option_map rank (branch_rt m).
Definition college_rank (m : MasterRow) : option Z := option_map rank (college_rt m).

Definition district_tier (m : MasterRow) : option string := option_map tier (district_rt m).
Definition department_tier (m : MasterRow) : option string := option_map tier (department_rt m).
Definition branch_tier (m : MasterRow) : option string := option_map tier (branch_rt m).
Definition college_tier (m : MasterRow) : option string := option_map tier (college_rt m).

(** [left.merge(right, on=key, how="left")]: every left row, in order,
    paired with each right row of the same key, in the right table's
    order; a left row without a match is kept once with empty right
    columns.  [add] writes the right row's columns into the left row. *)
Definition merge_left {L R L' : Type} (key_l : L -> Z) (key_r : R -> Z)
  (add : L -> option R -> L') (left : list L) (right : list R) : list L' :=
  flat_map
    (fun l =>
       match filter (fun r => key_r r =? key_l l) right with
       | [] => [add l None]
       | matches => map (fun r => add l (Some r)) matches
       end)
    left.

Definition with_district (m : MasterRow) (d : option DistrictRow) : MasterRow :=
  mkMaster (cutoff_of m) (option_map dr_District d) (College_Name m) (Branch_Name m)
    (district_rt m) (department_rt m) (branch_rt m) (college_rt m).

Definition with_college (m : MasterRow) (c : option CollegeRow) : MasterRow :=
  mkMaster (cutoff_of m) (District m) (option_map cr_College_Name c) (Branch_Name m)
    (district_rt m) (department_rt m) (branch_rt m) (college_rt m).

Definition with_branch (m : MasterRow) (b : option BranchRow) : MasterRow :=
  mkMaster (cutoff_of m) (District m) (College_Name m) (option_map br_Branch_Name b)
    (district_rt m) (department_rt m) (branch_rt m) (college_rt m).

Definition with_district_rt (m : MasterRow) (r : option RankRow) : MasterRow :=
  mkMaster (cutoff_of m) (District m) (College_Name m) (Branch_Name m)
    r (department_rt m) (branch_rt m) (college_rt m).

Definition with_department_rt (m : MasterRow) (r : option RankRow) : MasterRow :=
  mkMaster (cutoff_of m) (District m) (College_Name m) (Branch_Name m)
    (district_rt m) r (branch_rt m) (college_rt m).

Definition with_branch_rt (m : MasterRow) (r : option RankRow) : MasterRow :=
  mkMaster (cutoff_of m) (District m) (College_Name m) (Branch_Name m)
    (district_rt m) (department_rt m) r (college_rt m).

Definition with_college_rt (m : MasterRow) (r : option RankRow) : MasterRow :=
  mkMaster (cutoff_of m) (District m) (College_Name m) (Branch_Name m)
    (district_rt m) (department_rt m) (branch_rt m) r.

(** [cutoff.copy()] seen as a master table with no joined column yet. *)
Definition bare (c : CutoffRecord) : MasterRow :=
  mkMaster c None None None None None None None.

Definition build_master_table (cutoff : list CutoffRecord)
  (districts : list DistrictRow) (colleges : list CollegeRow)
  (branches : list BranchRow) (ranks : Ranks) : list MasterRow :=
  let master := map bare cutoff in
  let master :=
    merge_left (fun m => District_ID (cutoff_of m)) dr_District_ID with_district
      master districts in
  let master :=
    merge_left (fun m => College_code (cutoff_of m)) cr_College_code with_college
      master colleges in
  let master :=
    merge_left (fun m => Branch_Code (cutoff_of m)) br_Branch_Code with_branch
      master branches in
  let master :=
    merge_left (fun m => District_ID (cutoff_of m)) rr_key with_district_rt
      master (district_ranks ranks) in
  let master :=
    merge_left (fun m => Department_ID (cutoff_of m)) rr_key with_department_rt
      master (department_ranks ranks) in
  let master :=
    merge_left (fun m => Branch_Code (cutoff_of m)) rr_key with_branch_rt
      master (branch_ranks ranks) in
  let master :=
    merge_left (fun m => College_code (cutoff_of m)) rr_key with_college_rt
      master (college_ranks ranks) in
  master.

(* ================================================================= *)
(** ** ranking.py: the scores of a row *)

Definition compute_sum_of_tiers (row : MasterRow)
  (college_tiers branch_tiers district_tiers : list string) : Z :=
  let c_score := tier_score (college_tier row) college_tiers in
  let b_score := tier_score (branch_tier row) branch_tiers in
  let d_score := tier_score (district_tier row) district_tiers in
  c_score + b_score + d_score.

(** The dict [compute_tier_scores_column] returns, one field per key. *)
Record TierScores : Type := mkTierScores {
  ts_college_tier_score : Z;
  ts_branch_tier_score : Z;
  ts_district_tier_score : Z
}.

Definition compute_tier_scores_column (row : MasterRow)
  (college_tiers branch_tiers district_tiers : list string) : TierScores :=
  {| ts_college_tier_score := tier_score (college_tier row) college_tiers;
     ts_branch_tier_score := tier_score (branch_tier row) branch_tiers;
     ts_district_tier_score := tier_score (district_tier row) district_tiers |}.

(* ================================================================= *)
(** ** scoring.py *)

(** Python exceptions: a computation returns [None] when it raises. *)
Definition bind {A B : Type} (c : option A) (k : A -> option B) : option B :=
  match c with
  | Some a => k a
  | None => None
  end.

Notation "x <- c ;; k" := (bind c (fun x => k))
  (at level 61, c at next level, right associativity).

(** [a / b] raises [ZeroDivisionError] when [b] is zero. *)
Definition pydiv (a b : Qc) : option Qc :=
  if Num.eqb b 0%Qc then None else Some (a / b)%Qc.

Definition normalize_weights (district_w department_w branch_w college_w : Qc)
  : option (Qc * Qc * Qc * Qc) :=
  let total := (district_w + department_w + branch_w + college_w)%Qc in
  if Num.eqb total 0%Qc then
    Some (Num.lit 25 100, Num.lit 25 100, Num.lit 25 100, Num.lit 25 100)
  else
    d <- pydiv district_w total ;;
    dep <- pydiv department_w total ;;
    b <- pydiv branch_w total ;;
    c <- pydiv college_w total ;;
    Some (d, dep, b, c).

Definition rank_to_score (rank max_rank : Z) : Z := max_rank + 1 - rank.

(** [Series.max()] on a column with empty cells: the largest filled cell,
    NaN when there is none. *)
Fixpoint col_max (s : list (option Z)) : option Z :=
  match s with
  | [] => None
  | None :: s' => col_max s'
  | Some v :: s' =>
      match col_max s' with
      | Some m => Some (Z.max v m)
      | None => Some v
      end
  end.

(** Arithmetic on cells: an empty operand gives an empty result. *)
Definition cell2 {A B C : Type} (f : A -> B -> C) (a : option A) (b : option B)
  : option C :=
  match a, b with
  | Some x, Some y => Some (f x y)
  | _, _ => None
  end.

(** [(max + 1 - rank) * w] for one cell. *)
Definition weighted_score (mx rk : option Z) (w : Qc) : option Qc :=
  option_map (fun s => (Num.of_Z s * w)%Qc)
    (cell2 (fun m r => m + 1 - r) mx rk).

Definition compute_final_scores (df : list MasterRow)
  (district_w department_w branch_w college_w : Qc) : option (list (option Qc)) :=
  ws <- normalize_weights district_w department_w branch_w college_w ;;
  let '(d_w, dep_w, b_w, c_w) := ws in
  let d_max := col_max (map district_rank df) in
  let dep_max := col_max (map department_rank df) in
  let b_max := col_max (map branch_rank df) in
  let c_max := col_max (map college_rank df) in
  Some
    (map
       (fun r =>
          let d_score := weighted_score d_max (district_rank r) d_w in
          let dep_score := weighted_score dep_max (department_rank r) dep_w in
          let b_score := weighted_score b_max (branch_rank r) b_w in
          let c_score := weighted_score c_max (college_rank r) c_w in
          cell2 Qcplus (cell2 Qcplus (cell2 Qcplus d_score dep_score) b_score) c_score)
       df).

(** [round(2)]: to the nearest multiple of 0.01, halves to the even
    neighbour. *)
Definition rint (q : Q) : Z :=
  let f := Qfloor q in
  match Qcompare (q - inject_Z f) (1 # 2) with
  | Lt => f
  | Gt => f + 1
  | Eq => if Z.even f then f else f + 1
  end.

Definition round2 (x : Qc) : Qc := Q2Qc (rint (x * 100) # 100).

(** A master row with the columns the pipeline adds before sorting. *)
Record ScoredRow : Type := mkScored {
  row : MasterRow;
  college_tier_score : Z;
  branch_tier_score : Z;
  district_tier_score : Z;
  sum_of_tiers : Z;
  final_score : option Qc
}.

(** The finished row, with its position. *)
Record OrderedRow : Type := mkOrdered {
  scored : ScoredRow;
  choose_order : Z
}.

(** Comparison of two cells of a sort key: empty cells go last, whatever
    the direction of the key. *)
Definition na_last {A : Type} (cmp : A -> A -> comparison) (a b : option A)
  : comparison :=
  match a, b with
  | Some x, Some y => cmp x y
  | Some _, None => Lt
  | None, Some _ => Gt
  | None, None => Eq
  end.

Definition ascending {A : Type} (cmp : A -> A -> comparison) : A -> A -> comparison :=
  cmp.
Definition descending {A : Type} (cmp : A -> A -> comparison) : A -> A -> comparison :=
  fun a b => cmp b a.

(** The next key decides only when this one ties. *)
Definition then_by (c1 c2 : comparison) : comparison :=
  match c1 with
  | Eq => c2
  | _ => c1
  end.

(** [by=["sum_of_tiers", "final_score", "Catogery OC Cutoff", "college_rank"],
    ascending=[False, False, False, True]]. *)
Definition sort_key_compare (a b : ScoredRow) : comparison :=
  then_by (descending Z.compare (sum_of_tiers a) (sum_of_tiers b))
    (then_by (na_last (descending Qccompare) (final_score a) (final_score b))
       (then_by
          (descending Qccompare
             (Catogery_OC_Cutoff (cutoff_of (row a)))
             (Catogery_OC_Cutoff (cutoff_of (row b))))
          (na_last (ascending Z.compare)
             (college_rank (row a)) (college_rank (row b))))).

Definition sort_key_leb (a b : ScoredRow) : bool :=
  match sort_key_compare a b with
  | Gt => false
  | _ => true
  end.

Definition sort_values (df : list ScoredRow) : list ScoredRow :=
  stable_sort sort_key_leb df.

(** [range(1, n + 1)]. *)
Definition range1 (n : nat) : list Z := map Z.of_nat (seq 1 n).

Definition apply_tier_filtering_and_scoring (df : list MasterRow)
  (college_tiers branch_tiers district_tiers : list string)
  (district_w department_w branch_w college_w : Qc) : option (list OrderedRow) :=
  let result := df in
  let tiers :=
    map
      (fun r =>
         let c := tier_score (college_tier r) college_tiers in
         let b := tier_score (branch_tier r) branch_tiers in
         let d := tier_score (district_tier r) district_tiers in
         (r, c, b, d, c + b + d))
      result in
  fs <- compute_final_scores result district_w department_w branch_w college_w ;;
  let fs := map (option_map round2) fs in
  let result :=
    map (fun tf => let '((r, c, b, d, s), f) := tf in mkScored r c b d s f)
      (combine tiers fs) in
  let result := sort_values result in
  Some (map (fun rn => mkOrdered (fst rn) (snd rn))
          (combine result (range1 (length result)))).

(* ================================================================= *)
(** ** scoring.py: [normalize_weights] in binary64 *)

Module Binary64.

Import PrimFloat.
Local Open Scope float_scope.

(** [a / b] on floats raises [ZeroDivisionError] when [b] is zero, of
    either sign. *)
Definition pydiv (a b : float) : option float :=
  if b =? 0 then None else Some (a / b).

Definition normalize_weights (district_w department_w branch_w college_w : float)
  : option (float * float * float * float) :=
  let total := district_w + department_w + branch_w + college_w in
  if total =? 0 then Some (0.25, 0.25, 0.25, 0.25)
  else
    d <- pydiv district_w total ;;
    dep <- pydiv department_w total ;;
    b <- pydiv branch_w total ;;
    c <- pydiv college_w total ;;
    Some (d, dep, b, c).

(** The four results added from left to right, as [sum] adds them. *)
Definition sum_left (ws : float * float * float * float) : float :=
  let '(d, dep, b, c) := ws in d + dep + b + c.

(** Added from right to left. *)
Definition sum_right (ws : float * float * float * float) : float :=
  let '(d, dep, b, c) := ws in d + (dep + (b + c)).

(** Added in pairs. *)
Definition sum_pairs (ws : float * float * float * float) : float :=
  let '(d, dep, b, c) := ws in (d + dep) + (b + c).

Definition one : float := 1.
Definition quarter : float := 0.25.

(** The largest float below 1, printed 0.9999999999999999. *)
Definition below_one : float := 0x1.fffffffffffffp-1.

(** Slider values. *)
Definition w0 : float := 0.
Definition w1 : float := 1.
Definition w8 : float := 8.
Definition w9 : float := 9.
Definition w10 : float := 10.

(** A weight whose double is not a finite float. *)
Definition huge : float := 0x1p1023.

End Binary64.

(* ================================================================= *)
(** ** app.py *)

(** What [load_csvs] returns: the four tables read from the files of one
    year.  Reading the files is outside the model; the tables are the
    input. *)
Record Data : Type := mkData {
  data_districts : list DistrictRow;
  data_colleges : list CollegeRow;
  data_branches : list BranchRow;
  data_cutoff : list CutoffRecord
}.

(** [load_data], after [load_csvs]; [init_db] computes the same master
    table before it stores it. *)
Definition load_data (data : Data) : list MasterRow :=
  let ranks := compute_ranks_and_tiers (data_cutoff data) in
  let master :=
    build_master_table (data_cutoff data) (data_districts data)
      (data_colleges data) (data_branches data) ranks in
  master.

(** [sel or default] on lists: the empty list is false. *)
Definition or_default (sel default : list string) : list string :=
  match sel with
  | [] => default
  | _ :: _ => sel
  end.

(** The scored table of the page: the selections of the three multiselects
    and the four slider values (integers) go to the pipeline. *)
Definition app_scored (master : list MasterRow)
  (college_tiers branch_tiers district_tiers : list string)
  (district_w department_w branch_w college_w : Z) : option (list OrderedRow) :=
  apply_tier_filtering_and_scoring master
    (or_default college_tiers ALL_TIERS)
    (or_default branch_tiers ALL_TIERS)
    (or_default district_tiers ALL_TIERS)
    (Num.of_Z district_w) (Num.of_Z department_w)
    (Num.of_Z branch_w) (Num.of_Z college_w).

(** [Series.isin(values)] for a column of names: an empty cell is in no
    list of strings. *)
Definition isin (cell : option string) (values : list string) : bool :=
  match cell with
  | Some s => str_in s values
  | None => false
  end.

(** [if sel: filtered = filtered[filtered[col].isin(sel)]]. *)
Definition keep_selected (col : OrderedRow -> option string) (sel : list string)
  (filtered : list OrderedRow) : list OrderedRow :=
  match sel with
  | [] => filtered
  | _ :: _ => filter (fun o => isin (col o) sel) filtered
  end.

(** The row filters of the sidebar.  The [Department] column comes with
    the files and is not among the columns modelled above: it is a
    parameter. *)
Definition app_filtered (Department : MasterRow -> option string)
  (scored_df : list OrderedRow)
  (sel_districts sel_departments sel_branches sel_colleges : list string)
  : list OrderedRow :=
  let filtered := scored_df in
  let filtered :=
    keep_selected (fun o => District (row (scored o))) sel_districts filtered in
  let filtered :=
    keep_selected (fun o => Department (row (scored o))) sel_departments filtered in
  let filtered :=
    keep_selected (fun o => Branch_Name (row (scored o))) sel_branches filtered in
  let filtered :=
    keep_selected (fun o => College_Name (row (scored o))) sel_colleges filtered in
  filtered.

(** One row of a summary panel: the name, the rank and the best cutoff of
    an entity. *)
Record PanelRow : Type := mkPanel {
  pr_name : option string;
  pr_rank : option Z;
  pr_max_cutoff : option Qc
}.

(** [tier == "Top"] on a tier cell; an empty cell equals no string. *)
Definition is_top (t : option string) : bool :=
  match t with
  | Some s => String.eqb s "Top"
  | None => false
  end.

(** Equality of two name cells as [drop_duplicates] sees it: two empty
    cells count as the same name. *)
Definition name_eqb (a b : option string) : bool :=
  match a, b with
  | Some x, Some y => String.eqb x y
  | None, None => true
  | _, _ => false
  end.

(** [drop_duplicates(subset=[name])]: of the rows with one name the first
    is kept; [seen] holds the names met so far. *)
Fixpoint drop_duplicates (seen : list (option string)) (l : list PanelRow)
  : list PanelRow :=
  match l with
  | [] => []
  | x :: l' =>
      if existsb (name_eqb (pr_name x)) seen then drop_duplicates seen l'
      else x :: drop_duplicates (pr_name x :: seen) l'
  end.

(** A summary panel.  [sort_values(rank)] on a single column uses a sort
    that is not stable, so the order it gives to equal ranks is not
    fixed: the sort is the parameter [sort_by_rank], of which the
    statements assume only that it sorts. *)
Definition top_panel (sort_by_rank : list PanelRow -> list PanelRow)
  (name : MasterRow -> option string) (rt : MasterRow -> option RankRow)
  (scored_df : list OrderedRow) : list PanelRow :=
  let top :=
    filter (fun o => is_top (option_map tier (rt (row (scored o))))) scored_df in
  let cols :=
    map (fun o => mkPanel (name (row (scored o)))
                    (option_map rank (rt (row (scored o))))
                    (option_map max_cutoff (rt (row (scored o)))))
      top in
  firstn 10 (sort_by_rank (drop_duplicates [] cols)).

Definition top_colleges (sort_by_rank : list PanelRow -> list PanelRow)
  (scored_df : list OrderedRow) : list PanelRow :=
  top_panel sort_by_rank College_Name college_rt scored_df.

Definition top_branches (sort_by_rank : list PanelRow -> list PanelRow)
  (scored_df : list OrderedRow) : list PanelRow :=
  top_panel sort_by_rank Branch_Name branch_rt scored_df.

Definition top_districts (sort_by_rank : list PanelRow -> list PanelRow)
  (scored_df : list OrderedRow) : list PanelRow :=
  top_panel sort_by_rank District district_rt scored_df.

(* ================================================================= *)
(** * Vocabulary of the statements *)

(* ================================================================= *)
(** ** Orders given by a three-way comparison *)

(** [cmp] compares like a total preorder: swapping the arguments swaps
    the outcome, [Eq] is a congruence and [Lt] is transitive. *)
Class OrderCmp {A : Type} (cmp : A -> A -> comparison) : Prop := {
  cmp_opp : forall a b, cmp b a = CompOpp (cmp a b);
  cmp_eq_l : forall a b c, cmp a b = Eq -> cmp a c = cmp b c;
  cmp_lt_trans : forall a b c, cmp a b = Lt -> cmp b c = Lt -> cmp a c = Lt
}.

(** Lexicographic combination of a key comparison with a comparison of
    the remaining keys. *)
Definition lex {A K : Type} (key : A -> K) (ck : K -> K -> comparison)
  (rest : A -> A -> comparison) (a b : A) : comparison :=
  then_by (ck (key a) (key b)) (rest a b).

Definition on_key {A K : Type} (key : A -> K) (ck : K -> K -> comparison)
  (a b : A) : comparison := ck (key a) (key b).

Definition leb_of {A : Type} (cmp : A -> A -> comparison) (a b : A) : bool :=
  match cmp a b with
  | Gt => false
  | _ => true
  end.

(* ================================================================= *)
(** ** Rank tables *)

(** The distinct values of the column [s] that are at least [v]. *)
Definition at_least (s : list Qc) (v : Qc) : list Qc :=
  nodup Qc_eq_dec (filter (fun x => Num.leb v x) s).

(** The best cutoff of an entity that has records. *)
Definition best_cutoff (group_col : CutoffRecord -> Z)
  (cutoff : list CutoffRecord) (k : Z) : Qc :=
  match series_max (map Catogery_OC_Cutoff (group_of group_col cutoff k)) with
  | Some m => m
  | None => 0%Qc
  end.

(** The [max_cutoff] column of the category, one entry per entity. *)
Definition entity_cutoffs (group_col : CutoffRecord -> Z)
  (cutoff : list CutoffRecord) : list Qc :=
  map snd (groupby_max group_col cutoff).

(** Its distinct values. *)
Definition distinct_cutoffs (group_col : CutoffRecord -> Z)
  (cutoff : list CutoffRecord) : list Qc :=
  nodup Qc_eq_dec (entity_cutoffs group_col cutoff).

(** The number of distinct values: the largest rank. *)
Definition rank_count (group_col : CutoffRecord -> Z)
  (cutoff : list CutoffRecord) : Z :=
  Z.of_nat (length (distinct_cutoffs group_col cutoff)).

(** The row of the rank table for one row [e] of the aggregate. *)
Definition rank_row (group_col : CutoffRecord -> Z)
  (cutoff : list CutoffRecord) (e : Z * Qc) : RankRow :=
  mkRank (fst e) (snd e)
    (dense_rank_of (entity_cutoffs group_col cutoff) (snd e))
    (_tier_label (dense_rank_of (entity_cutoffs group_col cutoff) (snd e))
       (rank_count group_col cutoff)).

(* ================================================================= *)
(** ** The master table *)

(** The row of a table with a given key, if any (the first one). *)
Definition lookup {R : Type} (key : R -> Z) (k : Z) (t : list R) : option R :=
  find (fun r => key r =? k) t.

(** The master row of one cutoff record when every joined table has at
    most one row per key. *)
Definition joined_row (districts : list DistrictRow) (colleges : list CollegeRow)
  (branches : list BranchRow) (ranks : Ranks) (c : CutoffRecord) : MasterRow :=
  mkMaster c
    (option_map dr_District (lookup dr_District_ID (District_ID c) districts))
    (option_map cr_College_Name (lookup cr_College_code (College_code c) colleges))
    (option_map br_Branch_Name (lookup br_Branch_Code (Branch_Code c) branches))
    (lookup rr_key (District_ID c) (district_ranks ranks))
    (lookup rr_key (Department_ID c) (department_ranks ranks))
    (lookup rr_key (Branch_Code c) (branch_ranks ranks))
    (lookup rr_key (College_code c) (college_ranks ranks)).

(** Every joined table has at most one row per join key. *)
Definition unique_keys (districts : list DistrictRow) (colleges : list CollegeRow)
  (branches : list BranchRow) (ranks : Ranks) : Prop :=
  NoDup (map dr_District_ID districts) /\
  NoDup (map cr_College_code colleges) /\
  NoDup (map br_Branch_Code branches) /\
  NoDup (map rr_key (district_ranks ranks)) /\
  NoDup (map rr_key (department_ranks ranks)) /\
  NoDup (map rr_key (branch_ranks ranks)) /\
  NoDup (map rr_key (college_ranks ranks)).

(** No rank table had a row for this record: the rank and tier columns
    of all four categories are empty. *)
Definition no_rank_data (r : MasterRow) : Prop :=
  district_rt r = None /\ department_rt r = None /\
  branch_rt r = None /\ college_rt r = None.

(** Every rank table had a row for this record. *)
Definition fully_ranked (r : MasterRow) : Prop :=
  district_rt r <> None /\ department_rt r <> None /\
  branch_rt r <> None /\ college_rt r <> None.

(* ================================================================= *)
(** ** The scoring pipeline *)

(** The final score the pipeline gives a row, the weights [ws] being
    normalized and the column maxima taken over [df]. *)
Definition final_of (ws : Qc * Qc * Qc * Qc) (df : list MasterRow) (r : MasterRow)
  : option Qc :=
  let '(d_w, dep_w, b_w, c_w) := ws in
  option_map round2
    (cell2 Qcplus
       (cell2 Qcplus
          (cell2 Qcplus
             (weighted_score (col_max (map district_rank df)) (district_rank r) d_w)
             (weighted_score (col_max (map department_rank df)) (department_rank r) dep_w))
          (weighted_score (col_max (map branch_rank df)) (branch_rank r) b_w))
       (weighted_score (col_max (map college_rank df)) (college_rank r) c_w)).

(** The columns the pipeline adds to one row. *)
Definition score_row (ct bt dt : list string) (ws : Qc * Qc * Qc * Qc)
  (df : list MasterRow) (r : MasterRow) : ScoredRow :=
  let c := tier_score (college_tier r) ct in
  let b := tier_score (branch_tier r) bt in
  let d := tier_score (district_tier r) dt in
  mkScored r c b d (c + b + d) (final_of ws df r).

(** The sorted rows with their positions, counted from 1. *)
Definition number_rows (l : list ScoredRow) : list OrderedRow :=
  map (fun rn => mkOrdered (fst rn) (snd rn)) (combine l (range1 (length l))).

(** The third sort key of a row. *)
Definition cutoff_value (a : ScoredRow) : Qc :=
  Catogery_OC_Cutoff (cutoff_of (row a)).

(** The order in words.  [x] goes strictly before [y] on a descending
    key, empty cells last: *)
Definition before_desc (x y : option Qc) : Prop :=
  match x, y with
  | Some a, Some b => (b < a)%Qc
  | Some _, None => True
  | None, _ => False
  end.

(** and on an ascending key, empty cells last: *)
Definition before_asc (x y : option Z) : Prop :=
  match x, y with
  | Some a, Some b => a < b
  | Some _, None => True
  | None, _ => False
  end.

(** [a] may stand before [b]: larger [sum_of_tiers] first; on a tie larger
    [final_score]; on a tie larger cutoff; on a tie smaller
    [college_rank]; rows that tie on all four keys stand in either order. *)
Definition in_order (a b : ScoredRow) : Prop :=
  sum_of_tiers b < sum_of_tiers a \/
  (sum_of_tiers a = sum_of_tiers b /\
   (before_desc (final_score a) (final_score b) \/
    (final_score a = final_score b /\
     ((cutoff_value b < cutoff_value a)%Qc \/
      (cutoff_value a = cutoff_value b /\
       (before_asc (college_rank (row a)) (college_rank (row b)) \/
        college_rank (row a) = college_rank (row b))))))).

(** The row's tier for a category is in the selection for that category. *)
Definition tier_selected (t : option string) (sel : list string) : Prop :=
  exists s, t = Some s /\ In s sel.

(** The score a tier gets: its fixed base score when selected, 0 when not. *)
Definition scores_tier (t : option string) (sel : list string) (score : Z) : Prop :=
  (forall s, t = Some s -> In s sel ->
     (s = "Top" /\ score = 4) \/ (s = "Best" /\ score = 3) \/
     (s = "Next-Best" /\ score = 2) \/ (s = "Rest" /\ score = 1)) /\
  (~ tier_selected t sel -> score = 0).

(* ================================================================= *)
(** ** Loaded tables *)

(** [B] carries the records of [A]: every row of [B] has the cutoff record
    of a row of [A], every row of [A] has its record in [B], and [B] is
    at least as long. *)
Definition carries (A B : list MasterRow) : Prop :=
  (forall m, In m B -> exists l, In l A /\ cutoff_of m = cutoff_of l) /\
  (forall l, In l A -> exists m, In m B /\ cutoff_of m = cutoff_of l) /\
  (length A <= length B)%nat.

(** The cell [x] holds the row that the rank table of category
    [group_col] has for the entity of record [c], and that entity's best
    cutoff is at least the record's cutoff. *)
Definition ranked_by (group_col : CutoffRecord -> Z) (cutoff : list CutoffRecord)
  (c : CutoffRecord) (x : option RankRow) : Prop :=
  exists r, x = Some r /\ In r (_rank_and_tier cutoff group_col) /\
            rr_key r = group_col c /\
            (Catogery_OC_Cutoff c <= max_cutoff r)%Qc.

(** The reference tables have at most one row per key. *)
Definition unique_reference_keys (data : Data) : Prop :=
  NoDup (map dr_District_ID (data_districts data)) /\
  NoDup (map cr_College_code (data_colleges data)) /\
  NoDup (map br_Branch_Code (data_branches data)).

(* ================================================================= *)
(** ** Ties of the sort, positions of the filtered view *)

(** [x] ties with [a] on all four sort keys. *)
Definition ties_with (a x : ScoredRow) : bool :=
  match sort_key_compare a x with
  | Eq => true
  | _ => false
  end.

(** The row passes the filter on one column: the filter is unset, or the
    cell is among the selected names. *)
Definition passes (cell : option string) (sel : list string) : Prop :=
  sel = [] \/ exists s, cell = Some s /\ In s sel.

(* ================================================================= *)
(** ** Summary panels *)

(** [a] may stand before [b] in a panel: its rank is smaller or the same,
    an empty rank last. *)
Definition rank_not_after (a b : PanelRow) : Prop :=
  before_asc (pr_rank a) (pr_rank b) \/ pr_rank a = pr_rank b.

(** [sort] returns its argument reordered and in rank order. *)
Definition sorts_by_rank (sort : list PanelRow -> list PanelRow) : Prop :=
  (forall l, Permutation (sort l) l) /\
  (forall l, StronglySorted rank_not_after (sort l)).

(** The panel row of a scored row. *)
Definition panel_row_of (name : MasterRow -> option string)
  (rt : MasterRow -> option RankRow) (o : OrderedRow) : PanelRow :=
  mkPanel (name (row (scored o)))
    (option_map rank (rt (row (scored o))))
    (option_map max_cutoff (rt (row (scored o)))).

(** A sort by rank for the sample runs. *)
Definition ex_sort (l : list PanelRow) : list PanelRow :=
  stable_sort (leb_of (on_key pr_rank (na_last (ascending Z.compare)))) l.

(* ================================================================= *)
(** ** Sample data *)

(** A cutoff record of district [d] with cutoff [c]; college, branch and
    department are the same for all. *)
Definition ex_cut (d : Z) (c : Z) : CutoffRecord :=
  mkCutoff d 1 1 1 (Num.of_Z c) 2020.

(** Four districts with the cutoffs 100, 100, 90, 80. *)
Definition ex_four : list CutoffRecord :=
  [ex_cut 1 100; ex_cut 2 100; ex_cut 3 90; ex_cut 4 80].

(** Two districts with the one cutoff 100. *)
Definition ex_single : list CutoffRecord := [ex_cut 1 100; ex_cut 2 100].

(** Six districts with five distinct cutoffs. *)
Definition ex_five : list CutoffRecord :=
  [ex_cut 1 100; ex_cut 2 95; ex_cut 3 90; ex_cut 4 85; ex_cut 5 80; ex_cut 6 80].

Definition ex_districts : list DistrictRow := [mkDistrict 1 "D1"; mkDistrict 2 "D2"].

Definition ex_master : list MasterRow :=
  build_master_table ex_four ex_districts [] [] (compute_ranks_and_tiers ex_four).

(** The master table of [ex_four] followed by a record that no rank table
    knows. *)
Definition ex_table : list MasterRow := ex_master ++ [bare (ex_cut 9 100)].

(** The sample tables as [load_csvs] would return them; the college
    table lists one code twice. *)
Definition ex_data : Data :=
  mkData ex_districts [mkCollege 1 "C1" 1; mkCollege 1 "C1 (old name)" 1] [] ex_four.

Definition ex_data_unique : Data := mkData ex_districts [mkCollege 1 "C1" 1] [] ex_four.

(** Five distinct cutoffs loaded and scored with the page's defaults. *)
Definition ex_scored_five : list OrderedRow :=
  match app_scored (load_data (mkData ex_districts [] [] ex_five))
          [] [] [] 25 25 25 25 with
  | Some out => out
  | None => []
  end.

Definition w25 : Qc := Num.of_Z 25.

(* ================================================================= *)
(** * Properties *)

(* ================================================================= *)
(** ** Three-way comparisons that are total preorders *)

Lemma cmp_eq_sym {A} (cmp : A -> A -> comparison) `{!OrderCmp cmp} a b :
  cmp a b = Eq -> cmp b a = Eq.
Proof. intros H. rewrite cmp_opp, H. reflexivity. Qed.

Lemma cmp_eq_r {A} (cmp : A -> A -> comparison) `{!OrderCmp cmp} a b c :
  cmp b c = Eq -> cmp a b = cmp a c.
Proof.
  intros H. rewrite (cmp_opp b a), (cmp_opp c a).
  f_equal. apply cmp_eq_l. exact H.
Qed.

#[global] Typeclasses Opaque ascending descending na_last.

#[export] Instance Z_compare_order : OrderCmp Z.compare.
Proof.
  split.
  - intros a b. apply Z.compare_antisym.
  - intros a b c H. apply Z.compare_eq in H. subst. reflexivity.
  - intros a b c H1 H2. rewrite Z.compare_lt_iff in *. lia.
Qed.

#[export] Instance Qc_compare_order : OrderCmp Qccompare.
Proof.
  split.
  - intros a b. unfold Qccompare. rewrite <- Qcompare_antisym. reflexivity.
  - intros a b c H. apply Qceq_alt in H. subst. reflexivity.
  - intros a b c H1 H2. apply Qclt_alt. apply Qclt_alt in H1, H2.
    eapply Qclt_trans; eassumption.
Qed.

#[export] Instance descending_order {A} (cmp : A -> A -> comparison)
  `{!OrderCmp cmp} : OrderCmp (descending cmp).
Proof.
  unfold descending. split.
  - intros a b. apply cmp_opp.
  - intros a b c H. apply (cmp_eq_r cmp). apply (cmp_eq_sym cmp). exact H.
  - intros a b c H1 H2. exact (cmp_lt_trans c b a H2 H1).
Qed.

#[export] Instance ascending_order {A} (cmp : A -> A -> comparison)
  `{!OrderCmp cmp} : OrderCmp (ascending cmp).
Proof. assumption. Qed.

#[export] Instance na_last_order {A} (cmp : A -> A -> comparison)
  `{!OrderCmp cmp} : OrderCmp (na_last cmp).
Proof.
  split.
  - intros [a|] [b|]; simpl; auto using cmp_opp.
  - intros [a|] [b|] [c|]; simpl; try discriminate; auto using cmp_eq_l.
  - intros [a|] [b|] [c|]; simpl; try discriminate; eauto using cmp_lt_trans.
Qed.

#[global] Typeclasses Opaque lex on_key.

#[export] Instance on_key_order {A K} (key : A -> K) (ck : K -> K -> comparison)
  `{!OrderCmp ck} : OrderCmp (on_key key ck).
Proof.
  unfold on_key. split; intros.
  - apply cmp_opp.
  - apply cmp_eq_l; assumption.
  - eapply cmp_lt_trans; eassumption.
Qed.

#[export] Instance lex_order {A K} (key : A -> K) (ck : K -> K -> comparison)
  (rest : A -> A -> comparison) `{!OrderCmp ck} `{!OrderCmp rest} :
  OrderCmp (lex key ck rest).
Proof.
  unfold lex, then_by. split.
  - intros a b. rewrite (cmp_opp (cmp := ck) (key a) (key b)).
    rewrite (cmp_opp (cmp := rest) a b).
    destruct (ck (key a) (key b)); reflexivity.
  - intros a b c H.
    destruct (ck (key a) (key b)) eqn:E; try discriminate.
    rewrite (cmp_eq_l (cmp := ck) _ _ (key c) E).
    rewrite (cmp_eq_l (cmp := rest) _ _ c H). reflexivity.
  - intros a b c H1 H2.
    destruct (ck (key a) (key b)) eqn:E1; try discriminate;
      destruct (ck (key b) (key c)) eqn:E2; try discriminate.
    + rewrite (cmp_eq_l (cmp := ck) _ _ (key c) E1), E2.
      exact (cmp_lt_trans a b c H1 H2).
    + rewrite (cmp_eq_l (cmp := ck) _ _ (key c) E1), E2. reflexivity.
    + rewrite <- (cmp_eq_r ck _ _ _ E2), E1. reflexivity.
    + rewrite (cmp_lt_trans (cmp := ck) _ _ _ E1 E2). reflexivity.
Qed.

Lemma leb_of_total {A} (cmp : A -> A -> comparison) `{!OrderCmp cmp} a b :
  leb_of cmp a b = true \/ leb_of cmp b a = true.
Proof.
  unfold leb_of. rewrite (cmp_opp a b). destruct (cmp a b); simpl; auto.
Qed.

Lemma leb_of_trans {A} (cmp : A -> A -> comparison) `{!OrderCmp cmp} a b c :
  leb_of cmp a b = true -> leb_of cmp b c = true -> leb_of cmp a c = true.
Proof.
  unfold leb_of. intros H1 H2.
  destruct (cmp a b) eqn:E1; try discriminate;
    destruct (cmp b c) eqn:E2; try discriminate.
  - rewrite (cmp_eq_l (cmp := cmp) _ _ c E1), E2. reflexivity.
  - rewrite (cmp_eq_l (cmp := cmp) _ _ c E1), E2. reflexivity.
  - rewrite <- (cmp_eq_r cmp _ _ _ E2), E1. reflexivity.
  - rewrite (cmp_lt_trans (cmp := cmp) _ _ _ E1 E2). reflexivity.
Qed.

(* ================================================================= *)
(** ** The stable sort sorts and permutes *)

Section StableSortFacts.

Context {A : Type} (le : A -> A -> bool).
Hypothesis le_total : forall a b, le a b = true \/ le b a = true.
Hypothesis le_trans : forall a b c, le a b = true -> le b c = true -> le a c = true.

Lemma insert_perm x l : Permutation (insert le x l) (x :: l).
Proof.
  induction l as [|y l IH]; simpl.
  - reflexivity.
  - destruct (le x y).
    + reflexivity.
    + rewrite IH. apply perm_swap.
Qed.

Lemma stable_sort_perm l : Permutation (stable_sort le l) l.
Proof.
  induction l as [|x l IH]; simpl.
  - reflexivity.
  - rewrite insert_perm. constructor. exact IH.
Qed.

Lemma insert_sorted x l :
  StronglySorted (fun a b => le a b = true) l -> StronglySorted (fun a b => le a b = true) (insert le x l).
Proof.
  induction 1 as [|y l Hs IH Hy]; simpl.
  - repeat constructor.
  - destruct (le x y) eqn:E.
    + constructor.
      * constructor; assumption.
      * constructor; [exact E|].
        eapply Forall_impl; [|exact Hy].
        intros z Hz. eapply le_trans; eassumption.
    + constructor; [exact IH|].
      assert (Hyx : le y x = true) by (destruct (le_total x y); [congruence|assumption]).
      eapply Permutation_Forall.
      * symmetry. apply insert_perm.
      * constructor; assumption.
Qed.

Lemma stable_sort_sorted l : StronglySorted (fun a b => le a b = true) (stable_sort le l).
Proof.
  induction l as [|x l IH]; simpl.
  - constructor.
  - apply insert_sorted. exact IH.
Qed.

End StableSortFacts.

Lemma StronglySorted_nth {A} (R : A -> A -> Prop) l :
  StronglySorted R l ->
  forall i j a b, (i < j)%nat ->
    nth_error l i = Some a -> nth_error l j = Some b -> R a b.
Proof.
  induction 1 as [|x l Hs IH Hx]; intros i j a b Hij Hi Hj.
  - destruct i; discriminate.
  - destruct j as [|j]; [lia|]. simpl in Hj.
    destruct i as [|i]; simpl in Hi.
    + injection Hi as <-. rewrite Forall_forall in Hx.
      apply Hx. eapply nth_error_In; eassumption.
    + eapply IH; [|eassumption|eassumption]. lia.
Qed.

(* ================================================================= *)
(** ** List facts used below *)

Lemma combine_map_map {A B C} (f : A -> B) (g : A -> C) l :
  combine (map f l) (map g l) = map (fun x => (f x, g x)) l.
Proof. induction l; simpl; congruence. Qed.

Lemma map_fst_combine_le {A B} (l : list A) (l' : list B) :
  (length l <= length l')%nat -> map fst (combine l l') = l.
Proof.
  revert l'. induction l as [|x l IH]; intros [|y l'] H; simpl in *;
    try reflexivity; try lia.
  f_equal. apply IH. lia.
Qed.

Lemma map_snd_combine_ge {A B} (l : list A) (l' : list B) :
  (length l' <= length l)%nat -> map snd (combine l l') = l'.
Proof.
  revert l'. induction l as [|x l IH]; intros [|y l'] H; simpl in *;
    try reflexivity; try lia.
  f_equal. apply IH. lia.
Qed.

Lemma nth_error_seq_inv s n i k :
  nth_error (seq s n) i = Some k -> k = (s + i)%nat.
Proof.
  revert s i. induction n as [|n IH]; intros s [|i] H; simpl in H; try discriminate.
  - injection H as <-. lia.
  - apply IH in H. lia.
Qed.

Lemma length_range1 n : length (range1 n) = n.
Proof. unfold range1. rewrite length_map, length_seq. reflexivity. Qed.

(* ================================================================= *)
(** ** The scoring pipeline, row by row *)

Lemma normalize_weights_total d dep b c :
  exists ws, normalize_weights d dep b c = Some ws.
Proof.
  unfold normalize_weights, pydiv.
  destruct (Num.eqb (d + dep + b + c)%Qc 0%Qc); simpl; eauto.
Qed.

Lemma pipeline_rows df ct bt dt d_w dep_w b_w c_w :
  exists ws,
    normalize_weights d_w dep_w b_w c_w = Some ws /\
    apply_tier_filtering_and_scoring df ct bt dt d_w dep_w b_w c_w =
      Some (number_rows (sort_values (map (score_row ct bt dt ws df) df))).
Proof.
  destruct (normalize_weights_total d_w dep_w b_w c_w) as [ws Hws].
  exists ws. split; [exact Hws|].
  unfold apply_tier_filtering_and_scoring, compute_final_scores.
  rewrite Hws. destruct ws as [[[w1 w2] w3] w4]. simpl bind.
  rewrite map_map, combine_map_map, map_map.
  reflexivity.
Qed.

Lemma scored_number_rows l : map scored (number_rows l) = l.
Proof.
  unfold number_rows. rewrite map_map. simpl.
  apply map_fst_combine_le. rewrite length_range1. lia.
Qed.

Lemma choose_order_number_rows l :
  map choose_order (number_rows l) = range1 (length l).
Proof.
  unfold number_rows. rewrite map_map. simpl.
  apply map_snd_combine_ge. rewrite length_range1. lia.
Qed.

Lemma row_score_row ct bt dt ws df l :
  map row (map (score_row ct bt dt ws df) l) = l.
Proof. rewrite map_map. simpl. apply map_id. Qed.

(* ================================================================= *)
(** ** The sort order *)

Lemma sort_key_compare_lex :
  sort_key_compare =
  lex sum_of_tiers (descending Z.compare)
    (lex final_score (na_last (descending Qccompare))
       (lex cutoff_value (descending Qccompare)
          (on_key (fun a => college_rank (row a)) (na_last (ascending Z.compare))))).
Proof. reflexivity. Qed.

#[export] Instance sort_key_order : OrderCmp sort_key_compare.
Proof. rewrite sort_key_compare_lex. typeclasses eauto. Qed.

Lemma sort_key_leb_total a b : sort_key_leb a b = true \/ sort_key_leb b a = true.
Proof. apply (leb_of_total sort_key_compare). Qed.

Lemma sort_key_leb_trans a b c :
  sort_key_leb a b = true -> sort_key_leb b c = true -> sort_key_leb a c = true.
Proof. apply (leb_of_trans sort_key_compare). Qed.

Lemma na_last_desc_spec (x y : option Qc) :
  match na_last (descending Qccompare) x y with
  | Lt => before_desc x y
  | Eq => x = y
  | Gt => before_desc y x
  end.
Proof.
  destruct x as [a|], y as [b|]; simpl; auto.
  unfold descending. destruct (Qccompare b a) eqn:E.
  - apply Qceq_alt in E. congruence.
  - apply Qclt_alt. exact E.
  - apply Qcgt_alt in E. exact E.
Qed.

Lemma na_last_asc_spec (x y : option Z) :
  match na_last (ascending Z.compare) x y with
  | Lt => before_asc x y
  | Eq => x = y
  | Gt => before_asc y x
  end.
Proof.
  destruct x as [a|], y as [b|]; simpl; auto.
  unfold ascending. destruct (Z.compare_spec a b); [congruence|lia|lia].
Qed.

Lemma sort_key_leb_in_order a b : sort_key_leb a b = true -> in_order a b.
Proof.
  pose proof (na_last_desc_spec (final_score a) (final_score b)) as Hf.
  pose proof (na_last_asc_spec (college_rank (row a)) (college_rank (row b))) as Hr.
  unfold sort_key_leb, sort_key_compare, in_order, then_by.
  fold (cutoff_value a) (cutoff_value b).
  cbv beta delta [descending ascending] in *.
  destruct (Z.compare_spec (sum_of_tiers b) (sum_of_tiers a)) as [Hs|Hs|Hs];
    [|intros _; left; exact Hs|intros H; discriminate H].
  destruct (na_last (fun a0 b0 => Qccompare b0 a0) (final_score a) (final_score b));
    [|intros _; right; split; [congruence|left; exact Hf]|intros H; discriminate H].
  destruct (Qccompare (cutoff_value b) (cutoff_value a)) eqn:Ec;
    [|intros _; right; split; [congruence|]; right; split; [exact Hf|];
      left; apply Qclt_alt; exact Ec|intros H; discriminate H].
  apply Qceq_alt in Ec.
  destruct (na_last Z.compare (college_rank (row a)) (college_rank (row b)));
    intros H; try discriminate H; right; (split; [congruence|]); right;
    (split; [exact Hf|]); right; (split; [congruence|]); auto.
Qed.

Lemma sort_values_sorted l :
  StronglySorted (fun a b => sort_key_leb a b = true) (sort_values l).
Proof.
  apply stable_sort_sorted.
  - exact sort_key_leb_total.
  - exact sort_key_leb_trans.
Qed.

Lemma sort_values_perm l : Permutation (sort_values l) l.
Proof. apply stable_sort_perm. Qed.

Lemma sort_values_in_order l : StronglySorted in_order (sort_values l).
Proof.
  pose proof (sort_values_sorted l) as H.
  induction H as [|x l' Hs IH Hx]; constructor.
  - exact IH.
  - eapply Forall_impl; [|exact Hx]. intros b. apply sort_key_leb_in_order.
Qed.

Lemma in_order_sum a b : in_order a b -> sum_of_tiers b <= sum_of_tiers a.
Proof. unfold in_order. intros [H|[H _]]; lia. Qed.

(** C1. Whatever the table and the parameters, the pipeline returns the
    rows of the table, none added and none dropped, each with the sum of
    its three tier scores under the given selections, and these rows come
    sorted by [sum_of_tiers] descending, then [final_score] descending,
    then cutoff descending, then [college_rank] ascending (an empty cell
    of a key after the filled ones); in particular a row with a strictly
    greater [sum_of_tiers] stands before a row with a smaller one,
    whatever their final scores. *)
Theorem pipeline_sorted_by_keys :
  forall df ct bt dt d_w dep_w b_w c_w,
  exists out,
    apply_tier_filtering_and_scoring df ct bt dt d_w dep_w b_w c_w = Some out /\
    Permutation (map (fun o => row (scored o)) out) df /\
    (forall r, In r df -> exists o, In o out /\ row (scored o) = r) /\
    (forall o, In o out ->
       In (row (scored o)) df /\
       sum_of_tiers (scored o) =
         tier_score (college_tier (row (scored o))) ct +
         tier_score (branch_tier (row (scored o))) bt +
         tier_score (district_tier (row (scored o))) dt) /\
    StronglySorted in_order (map scored out) /\
    (forall i j a b,
        nth_error out i = Some a -> nth_error out j = Some b ->
        sum_of_tiers (scored b) < sum_of_tiers (scored a) -> (i < j)%nat).
Proof.
  intros df ct bt dt d_w dep_w b_w c_w.
  destruct (pipeline_rows df ct bt dt d_w dep_w b_w c_w) as (ws & _ & Hout).
  set (S := sort_values (map (score_row ct bt dt ws df) df)) in *.
  exists (number_rows S). split; [exact Hout|].
  assert (Hsorted : StronglySorted in_order (map scored (number_rows S))).
  { rewrite scored_number_rows. apply sort_values_in_order. }
  assert (Hperm : Permutation (map (fun o => row (scored o)) (number_rows S)) df).
  { rewrite <- (map_map scored row), scored_number_rows.
    unfold S. rewrite sort_values_perm, row_score_row. reflexivity. }
  split; [exact Hperm|].
  split; [|split; [|split; [exact Hsorted|]]].
  - intros r Hr. apply (Permutation_in _ (Permutation_sym Hperm)) in Hr.
    apply in_map_iff in Hr. destruct Hr as (o & E & Ho). eauto.
  - intros o Ho. apply (in_map scored) in Ho. rewrite scored_number_rows in Ho.
    apply (Permutation_in _ (sort_values_perm _)), in_map_iff in Ho.
    destruct Ho as (r & <- & Hr). split; [exact Hr|reflexivity].
  - intros i j a b Hi Hj Hlt.
    destruct (Nat.lt_trichotomy i j) as [H|[H|H]]; [exact H| |].
    + subst j. rewrite Hi in Hj. injection Hj as <-. lia.
    + exfalso.
      assert (Hba : in_order (scored b) (scored a)).
      { eapply (StronglySorted_nth in_order _ Hsorted j i); [exact H| |];
          rewrite nth_error_map; [rewrite Hj|rewrite Hi]; reflexivity. }
      apply in_order_sum in Hba. lia.
Qed.

(** C10. The output rows are the input rows in some order, none added and
    none dropped, and [choose_order] reads 1, 2, ..., N down the output. *)
Theorem pipeline_permutation_choose_order :
  forall df ct bt dt d_w dep_w b_w c_w,
  exists out,
    apply_tier_filtering_and_scoring df ct bt dt d_w dep_w b_w c_w = Some out /\
    Permutation (map (fun o => row (scored o)) out) df /\
    length out = length df /\
    map choose_order out = map Z.of_nat (seq 1 (length df)) /\
    (forall i o, nth_error out i = Some o -> choose_order o = Z.of_nat i + 1).
Proof.
  intros df ct bt dt d_w dep_w b_w c_w.
  destruct (pipeline_rows df ct bt dt d_w dep_w b_w c_w) as (ws & _ & Hout).
  eexists. split; [exact Hout|].
  set (sorted := sort_values (map (score_row ct bt dt ws df) df)).
  assert (Hperm : Permutation (map (fun o => row (scored o)) (number_rows sorted)) df).
  { rewrite <- (map_map scored row), scored_number_rows.
    unfold sorted. rewrite sort_values_perm. rewrite row_score_row. reflexivity. }
  assert (Hlen : length (number_rows sorted) = length df).
  { rewrite <- (Permutation_length Hperm), length_map. reflexivity. }
  assert (Hco : map choose_order (number_rows sorted) = map Z.of_nat (seq 1 (length df))).
  { rewrite choose_order_number_rows.
    rewrite <- Hlen, <- (length_map scored), scored_number_rows. reflexivity. }
  repeat split; try assumption.
  intros i o Hi.
  assert (Hn : nth_error (map choose_order (number_rows sorted)) i = Some (choose_order o)).
  { rewrite nth_error_map, Hi. reflexivity. }
  rewrite Hco, nth_error_map in Hn.
  destruct (nth_error (seq 1 (length df)) i) as [k|] eqn:Ek; [|discriminate].
  injection Hn as <-. apply nth_error_seq_inv in Ek. lia.
Qed.

(* ================================================================= *)
(** ** Tier scores *)

Lemma str_in_In t l : str_in t l = true <-> In t l.
Proof.
  unfold str_in. rewrite existsb_exists. split.
  - intros (x & Hx & E). apply String.eqb_eq in E. subst. exact Hx.
  - intros H. exists t. split; [exact H|apply String.eqb_refl].
Qed.

Lemma tier_score_unselected t sel :
  (forall s, t = Some s -> ~ In s sel) -> tier_score t sel = 0.
Proof.
  intros H. destruct t as [s|]; simpl; [|reflexivity].
  destruct (str_in s sel) eqn:E; [|reflexivity].
  apply str_in_In in E. exfalso. exact (H s eq_refl E).
Qed.

Lemma tier_score_selected s sel :
  In s sel -> tier_score (Some s) sel = dict_get TIER_SCORES s 0.
Proof.
  intros H. apply str_in_In in H. unfold tier_score. rewrite H. reflexivity.
Qed.

Lemma tier_scores_known s :
  In s ALL_TIERS ->
  (s = "Top" /\ dict_get TIER_SCORES s 0 = 4) \/
  (s = "Best" /\ dict_get TIER_SCORES s 0 = 3) \/
  (s = "Next-Best" /\ dict_get TIER_SCORES s 0 = 2) \/
  (s = "Rest" /\ dict_get TIER_SCORES s 0 = 1).
Proof.
  intros [H|[H|[H|[H|[]]]]]; subst s; auto 6.
Qed.

Lemma dict_get_tier_range s : 0 <= dict_get TIER_SCORES s 0 <= 4.
Proof.
  change (dict_get TIER_SCORES s 0) with
    (if String.eqb s "Top" then 4
     else if String.eqb s "Best" then 3
     else if String.eqb s "Next-Best" then 2
     else if String.eqb s "Rest" then 1 else 0).
  destruct (String.eqb s "Top"); [lia|].
  destruct (String.eqb s "Best"); [lia|].
  destruct (String.eqb s "Next-Best"); [lia|].
  destruct (String.eqb s "Rest"); lia.
Qed.

Lemma tier_score_range t sel : 0 <= tier_score t sel <= 4.
Proof.
  destruct t as [s|]; simpl; [|lia].
  destruct (str_in s sel); [apply dict_get_tier_range|lia].
Qed.

Lemma tier_score_scores_tier t sel :
  incl sel ALL_TIERS -> scores_tier t sel (tier_score t sel).
Proof.
  intros Hsel. split.
  - intros s -> Hin. rewrite (tier_score_selected _ _ Hin).
    apply tier_scores_known. apply Hsel. exact Hin.
  - intros Hn. apply tier_score_unselected. intros s -> Hin.
    apply Hn. exists s. auto.
Qed.

Lemma tier_score_zero_iff t sel :
  incl sel ALL_TIERS -> tier_score t sel = 0 <-> ~ tier_selected t sel.
Proof.
  intros Hsel. split.
  - intros H0 (s & -> & Hin).
    rewrite (tier_score_selected _ _ Hin) in H0.
    destruct (tier_scores_known s (Hsel _ Hin)) as [[_ E]|[[_ E]|[[_ E]|[_ E]]]]; lia.
  - intros Hn. apply tier_score_unselected. intros s -> Hin.
    apply Hn. exists s. auto.
Qed.

Lemma score_row_sum ct bt dt ws df r :
  sum_of_tiers (score_row ct bt dt ws df r) =
    compute_sum_of_tiers r ct bt dt.
Proof. reflexivity. Qed.

Lemma in_pipeline_output ct bt dt ws df o :
  In o (number_rows (sort_values (map (score_row ct bt dt ws df) df))) ->
  exists r, In r df /\ scored o = score_row ct bt dt ws df r.
Proof.
  intros Ho. apply (in_map scored) in Ho. rewrite scored_number_rows in Ho.
  apply (Permutation_in _ (sort_values_perm _)) in Ho.
  apply in_map_iff in Ho. destruct Ho as (r & E & Hr). eauto.
Qed.

(** C6. With selections drawn from the four tiers, the pipeline returns
    the rows of the table, every row of the table among them, and every
    row's category tier score is the fixed base score of the row's tier
    (Top 4, Best 3, Next-Best 2, Rest 1) when that tier is selected and 0
    when it is not; [sum_of_tiers] is the sum of the three scores, lies in
    [0, 12], and is 0 exactly when no category's tier is selected. *)
Theorem tier_scores_and_sum :
  forall df ct bt dt d_w dep_w b_w c_w,
    incl ct ALL_TIERS -> incl bt ALL_TIERS -> incl dt ALL_TIERS ->
    exists out,
      apply_tier_filtering_and_scoring df ct bt dt d_w dep_w b_w c_w = Some out /\
      Permutation (map (fun o => row (scored o)) out) df /\
      (forall r, In r df -> exists o, In o out /\ row (scored o) = r) /\
      forall o, In o out ->
        let s := scored o in
        In (row s) df /\
        scores_tier (college_tier (row s)) ct (college_tier_score s) /\
        scores_tier (branch_tier (row s)) bt (branch_tier_score s) /\
        scores_tier (district_tier (row s)) dt (district_tier_score s) /\
        sum_of_tiers s =
          college_tier_score s + branch_tier_score s + district_tier_score s /\
        0 <= sum_of_tiers s <= 12 /\
        (sum_of_tiers s = 0 <->
           ~ tier_selected (college_tier (row s)) ct /\
           ~ tier_selected (branch_tier (row s)) bt /\
           ~ tier_selected (district_tier (row s)) dt).
Proof.
  intros df ct bt dt d_w dep_w b_w c_w Hc Hb Hd.
  destruct (pipeline_rows df ct bt dt d_w dep_w b_w c_w) as (ws & _ & Hout).
  eexists. split; [exact Hout|].
  assert (Hperm : Permutation
            (map (fun o => row (scored o))
               (number_rows (sort_values (map (score_row ct bt dt ws df) df)))) df).
  { rewrite <- (map_map scored row), scored_number_rows.
    rewrite sort_values_perm, row_score_row. reflexivity. }
  split; [exact Hperm|]. split.
  { intros r Hr. apply (Permutation_in _ (Permutation_sym Hperm)) in Hr.
    apply in_map_iff in Hr. destruct Hr as (o & E & Ho). eauto. }
  intros o Ho. apply in_pipeline_output in Ho. destruct Ho as (r & Hr & ->).
  cbv zeta. unfold score_row. cbn [row college_tier_score branch_tier_score
    district_tier_score sum_of_tiers].
  pose proof (tier_score_range (college_tier r) ct).
  pose proof (tier_score_range (branch_tier r) bt).
  pose proof (tier_score_range (district_tier r) dt).
  split; [exact Hr|].
  repeat split; try (apply tier_score_scores_tier; assumption); try lia.
  - apply tier_score_zero_iff; [assumption|lia].
  - apply tier_score_zero_iff; [assumption|lia].
  - apply tier_score_zero_iff; [assumption|lia].
  - intros (N1 & N2 & N3).
    apply (tier_score_zero_iff _ _ Hc) in N1.
    apply (tier_score_zero_iff _ _ Hb) in N2.
    apply (tier_score_zero_iff _ _ Hd) in N3. lia.
Qed.

(* ================================================================= *)
(** ** Rows without rank data *)

Lemma col_max_In s v : In (Some v) s -> exists m, col_max s = Some m.
Proof.
  induction s as [|[x|] s IH]; simpl; intros H.
  - contradiction.
  - destruct (col_max s); eauto.
  - destruct H as [H|H]; [discriminate|auto].
Qed.

Lemma weighted_score_some (f : MasterRow -> option RankRow) df r w :
  In r df -> f r <> None ->
  exists q,
    weighted_score (col_max (map (fun m => option_map rank (f m)) df))
      (option_map rank (f r)) w = Some q.
Proof.
  intros Hin Hr. destruct (f r) as [rr|] eqn:E; [|congruence].
  destruct (col_max_In (map (fun m => option_map rank (f m)) df) (rank rr))
    as [m Hm].
  { apply in_map_iff. exists r. rewrite E. auto. }
  rewrite Hm. unfold weighted_score, cell2, option_map. eexists. reflexivity.
Qed.

Lemma final_of_fully_ranked ws df r :
  In r df -> fully_ranked r -> exists q, final_of ws df r = Some q.
Proof.
  intros Hin (H1 & H2 & H3 & H4). destruct ws as [[[w1 w2] w3] w4].
  unfold final_of, district_rank, department_rank, branch_rank, college_rank.
  destruct (weighted_score_some district_rt df r w1 Hin H1) as [q1 ->].
  destruct (weighted_score_some department_rt df r w2 Hin H2) as [q2 ->].
  destruct (weighted_score_some branch_rt df r w3 Hin H3) as [q3 ->].
  destruct (weighted_score_some college_rt df r w4 Hin H4) as [q4 ->].
  simpl. eauto.
Qed.

Lemma final_of_no_rank_data ws df r : no_rank_data r -> final_of ws df r = None.
Proof.
  intros (H1 & _). destruct ws as [[[w1 w2] w3] w4].
  unfold final_of, district_rank. rewrite H1. simpl.
  unfold weighted_score at 1, cell2 at 4.
  destruct (col_max _); reflexivity.
Qed.

Lemma sum_of_tiers_no_rank_data ct bt dt ws df r :
  no_rank_data r -> sum_of_tiers (score_row ct bt dt ws df r) = 0.
Proof.
  intros (H1 & _ & H3 & H4). unfold score_row. simpl.
  unfold college_tier, branch_tier, district_tier. rewrite H1, H3, H4.
  reflexivity.
Qed.

Lemma sum_of_tiers_nonneg ct bt dt ws df r :
  0 <= sum_of_tiers (score_row ct bt dt ws df r).
Proof.
  unfold score_row. simpl.
  pose proof (tier_score_range (college_tier r) ct).
  pose proof (tier_score_range (branch_tier r) bt).
  pose proof (tier_score_range (district_tier r) dt). lia.
Qed.

(** C9. Rows without rank data do not make the pipeline fail: it returns,
    every input row (those rows included) is in the output, and a row
    without rank data stands after every row that has rank data in all
    four categories. *)
Theorem unranked_rows_sorted_last :
  forall df ct bt dt d_w dep_w b_w c_w,
  exists out,
    apply_tier_filtering_and_scoring df ct bt dt d_w dep_w b_w c_w = Some out /\
    (forall u, In u df -> exists o, In o out /\ row (scored o) = u) /\
    (forall i j ou orr,
        nth_error out i = Some ou -> nth_error out j = Some orr ->
        no_rank_data (row (scored ou)) -> fully_ranked (row (scored orr)) ->
        (j < i)%nat).
Proof.
  intros df ct bt dt d_w dep_w b_w c_w.
  destruct (pipeline_rows df ct bt dt d_w dep_w b_w c_w) as (ws & _ & Hout).
  eexists. split; [exact Hout|].
  set (out := number_rows (sort_values (map (score_row ct bt dt ws df) df))).
  split.
  - intros u Hu.
    assert (Hin : In u (map row (map scored out))).
    { unfold out. rewrite scored_number_rows.
      apply (Permutation_in _ (Permutation_map row (Permutation_sym (sort_values_perm _)))).
      rewrite row_score_row. exact Hu. }
    rewrite map_map in Hin. apply in_map_iff in Hin.
    destruct Hin as (o & E & Ho). eauto.
  - intros i j ou orr Hi Hj Hu Hr.
    destruct (in_pipeline_output ct bt dt ws df ou (nth_error_In _ _ Hi))
      as (u & Hudf & Eu).
    destruct (in_pipeline_output ct bt dt ws df orr (nth_error_In _ _ Hj))
      as (r & Hrdf & Er).
    rewrite Eu in Hu. rewrite Er in Hr. simpl in Hu, Hr.
    destruct (Nat.lt_trichotomy j i) as [H|[H|H]]; [exact H| |]; exfalso.
    + subst j. rewrite Hi in Hj. injection Hj as <-.
      rewrite Eu in Er. apply (f_equal row) in Er. simpl in Er. subst r.
      destruct Hu as (Hu & _), Hr as (Hr & _). contradiction.
    + assert (Hord : in_order (scored ou) (scored orr)).
      { eapply (StronglySorted_nth in_order (map scored out)).
        - unfold out. rewrite scored_number_rows. apply sort_values_in_order.
        - exact H.
        - rewrite nth_error_map. fold out in Hi. rewrite Hi. reflexivity.
        - rewrite nth_error_map. fold out in Hj. rewrite Hj. reflexivity. }
      rewrite Eu, Er in Hord. unfold in_order in Hord.
      rewrite (sum_of_tiers_no_rank_data ct bt dt ws df u Hu) in Hord.
      pose proof (sum_of_tiers_nonneg ct bt dt ws df r) as Hnn.
      destruct (final_of_fully_ranked ws df r Hrdf Hr) as [q Hq].
      pose proof (final_of_no_rank_data ws df u Hu) as Hn.
      unfold score_row in Hord at 3 4 5 6. simpl in Hord.
      rewrite Hq, Hn in Hord. simpl in Hord.
      unfold score_row in Hnn. simpl in Hnn.
      destruct Hord as [Hlt|[_ [[]|[Hd _]]]]; [lia|discriminate].
Qed.

(* ================================================================= *)
(** ** Weight normalization *)

Lemma Num_eqb_eq x y : Num.eqb x y = true <-> x = y.
Proof.
  unfold Num.eqb. rewrite Qeq_bool_iff. split.
  - apply Qc_is_canon.
  - intros ->. reflexivity.
Qed.

Lemma Qc_sum_zero (a b : Qc) :
  (0 <= a)%Qc -> (0 <= b)%Qc -> (a + b = 0)%Qc -> a = 0%Qc /\ b = 0%Qc.
Proof.
  intros Ha Hb H.
  assert (Ea : a = (- b)%Qc) by (rewrite <- (Qcplus_0_r (- b)), <- H; ring).
  assert (Hle : (a <= 0)%Qc).
  { rewrite Ea. replace 0%Qc with (- 0)%Qc by ring. apply Qcopp_le_compat. exact Hb. }
  assert (E0 : a = 0%Qc) by (apply Qcle_antisym; assumption).
  split; [exact E0|]. rewrite E0, Qcplus_0_l in H. exact H.
Qed.

Lemma Qc_nonneg_add (a b : Qc) : (0 <= a)%Qc -> (0 <= b)%Qc -> (0 <= a + b)%Qc.
Proof.
  intros Ha Hb. replace 0%Qc with (0 + 0)%Qc by ring.
  apply Qcplus_le_compat; assumption.
Qed.

Lemma quarter_sum :
  (Num.lit 25 100 + Num.lit 25 100 + Num.lit 25 100 + Num.lit 25 100 = 1)%Qc.
Proof. apply Qc_is_canon. reflexivity. Qed.

(** In exact arithmetic, for non-negative weights: normalization
    returns; the four results sum to 1; when the weights are all zero the
    result is exactly (0.25, 0.25, 0.25, 0.25), and otherwise each weight
    is divided by the sum of the four. *)
Theorem normalize_weights_sum_one :
  forall d dep b c : Qc,
    (0 <= d)%Qc -> (0 <= dep)%Qc -> (0 <= b)%Qc -> (0 <= c)%Qc ->
    exists d' dep' b' c',
      normalize_weights d dep b c = Some (d', dep', b', c') /\
      (d' + dep' + b' + c' = 1)%Qc /\
      ((d = 0%Qc /\ dep = 0%Qc /\ b = 0%Qc /\ c = 0%Qc /\
        (d', dep', b', c') =
          (Num.lit 25 100, Num.lit 25 100, Num.lit 25 100, Num.lit 25 100)) \/
       ((d + dep + b + c)%Qc <> 0%Qc /\
        d' = (d / (d + dep + b + c))%Qc /\
        dep' = (dep / (d + dep + b + c))%Qc /\
        b' = (b / (d + dep + b + c))%Qc /\
        c' = (c / (d + dep + b + c))%Qc)).
Proof.
  intros d dep b c Hd Hdep Hb Hc.
  unfold normalize_weights, pydiv.
  destruct (Num.eqb (d + dep + b + c)%Qc 0%Qc) eqn:E.
  - apply Num_eqb_eq in E.
    exists (Num.lit 25 100), (Num.lit 25 100), (Num.lit 25 100), (Num.lit 25 100).
    split; [reflexivity|]. split; [exact quarter_sum|]. left.
    destruct (Qc_sum_zero (d + dep + b) c) as [E3 ->]; auto using Qc_nonneg_add.
    destruct (Qc_sum_zero (d + dep) b) as [E2 ->]; auto using Qc_nonneg_add.
    destruct (Qc_sum_zero d dep) as [-> ->]; auto.
  - simpl.
    assert (Hne : (d + dep + b + c)%Qc <> 0%Qc).
    { intros H. apply Num_eqb_eq in H. congruence. }
    do 4 eexists. split; [reflexivity|]. split.
    + field. exact Hne.
    + right. auto.
Qed.

(* ================================================================= *)
(** ** Weight normalization in binary64 *)

Lemma binary64_normalize_weights_total d dep b c :
  exists ws, Binary64.normalize_weights d dep b c = Some ws.
Proof.
  unfold Binary64.normalize_weights, Binary64.pydiv.
  destruct (PrimFloat.eqb _ _); simpl; eauto.
Qed.

Example binary64_normalize_weights_all_zero :
  Binary64.normalize_weights Binary64.w0 Binary64.w0 Binary64.w0 Binary64.w0 =
    Some (Binary64.quarter, Binary64.quarter, Binary64.quarter, Binary64.quarter).
Proof. reflexivity. Qed.

(** Two weights whose sum overflows are both normalized to 0. *)
Example binary64_normalize_weights_overflow :
  Binary64.normalize_weights Binary64.huge Binary64.huge Binary64.w0 Binary64.w0 =
    Some (Binary64.w0, Binary64.w0, Binary64.w0, Binary64.w0).
Proof. reflexivity. Qed.

(** At the slider values 0, 1, 10, 10 the four weights, added from left to
    right, give the largest float below 1. *)
Example binary64_normalize_weights_0_1_10_10 :
  option_map Binary64.sum_left
    (Binary64.normalize_weights Binary64.w0 Binary64.w1 Binary64.w10 Binary64.w10) =
    Some Binary64.below_one.
Proof. vm_compute. reflexivity. Qed.

(** C7. At the slider values 8, 9, 9, 9 the code returns four weights
    that do not sum to 1.0: added from left to right, from right to left
    or in pairs, they give the largest float below 1. *)
Theorem normalize_weights_binary64_sum_below_one :
  exists ws,
    Binary64.normalize_weights Binary64.w8 Binary64.w9 Binary64.w9 Binary64.w9 =
      Some ws /\
    Binary64.sum_left ws = Binary64.below_one /\
    Binary64.sum_right ws = Binary64.below_one /\
    Binary64.sum_pairs ws = Binary64.below_one /\
    PrimFloat.eqb Binary64.below_one Binary64.one = false /\
    PrimFloat.ltb Binary64.below_one Binary64.one = true.
Proof.
  eexists. split; [vm_compute; reflexivity|].
  repeat split; vm_compute; reflexivity.
Qed.

(* ================================================================= *)
(** ** Dense ranks *)

Lemma Num_leb_le x y : Num.leb x y = true <-> (x <= y)%Qc.
Proof. unfold Num.leb. apply Qle_bool_iff. Qed.

Lemma Num_max_spec x y : ((x <= Num.max x y)%Qc /\ (y <= Num.max x y)%Qc) /\
                         (Num.max x y = x \/ Num.max x y = y).
Proof.
  unfold Num.max. destruct (Num.leb x y) eqn:E.
  - apply Num_leb_le in E. auto using Qcle_refl.
  - assert (~ (x <= y)%Qc) as H by (rewrite <- Num_leb_le; congruence).
    apply Qcnot_le_lt, Qclt_le_weak in H. auto using Qcle_refl.
Qed.

Lemma in_range1 n i : In i (range1 n) <-> 1 <= i <= Z.of_nat n.
Proof.
  unfold range1. rewrite in_map_iff. split.
  - intros (k & <- & Hk). apply in_seq in Hk. lia.
  - intros H. exists (Z.to_nat i). split; [lia|]. apply in_seq. lia.
Qed.

Section DenseRank.

Variable s : list Qc.

Lemma dense_rank_of_at_least v :
  dense_rank_of s v = Z.of_nat (length (at_least s v)).
Proof. reflexivity. Qed.

Lemma in_at_least v x : In x (at_least s v) <-> In x s /\ (v <= x)%Qc.
Proof.
  unfold at_least. rewrite nodup_In, filter_In, Num_leb_le. reflexivity.
Qed.

Lemma NoDup_at_least v : NoDup (at_least s v).
Proof. apply NoDup_nodup. Qed.

Lemma dense_rank_pos v : In v s -> 1 <= dense_rank_of s v.
Proof.
  intros Hv. rewrite dense_rank_of_at_least.
  assert (In v (at_least s v)) as H by (apply in_at_least; auto using Qcle_refl).
  destruct (at_least s v); [contradiction|simpl; lia].
Qed.

Lemma dense_rank_le_distinct v :
  dense_rank_of s v <= Z.of_nat (length (nodup Qc_eq_dec s)).
Proof.
  rewrite dense_rank_of_at_least. apply inj_le.
  apply NoDup_incl_length; [apply NoDup_at_least|].
  intros x Hx. apply in_at_least in Hx. apply nodup_In. tauto.
Qed.

Lemma dense_rank_strict u v :
  In u s -> (u < v)%Qc -> dense_rank_of s v < dense_rank_of s u.
Proof.
  intros Hu Huv. rewrite !dense_rank_of_at_least.
  assert (length (u :: at_least s v) <= length (at_least s u))%nat as H.
  { apply NoDup_incl_length.
    - constructor; [|apply NoDup_at_least].
      intros Hin. apply in_at_least in Hin. destruct Hin as [_ Hle].
      exact (Qclt_not_le _ _ Huv Hle).
    - intros x [<-|Hx].
      + apply in_at_least. auto using Qcle_refl.
      + apply in_at_least in Hx. apply in_at_least. split; [tauto|].
        apply Qcle_trans with v; [apply Qclt_le_weak; exact Huv|tauto]. }
  simpl in H. lia.
Qed.

Lemma dense_rank_lt_iff u v :
  In u s -> In v s -> (dense_rank_of s v < dense_rank_of s u <-> (u < v)%Qc).
Proof.
  intros Hu Hv. split; [|apply dense_rank_strict; exact Hu].
  intros H. destruct (Qc_dec u v) as [[Hlt|Hgt]|Heq].
  - exact Hlt.
  - pose proof (dense_rank_strict v u Hv Hgt). lia.
  - subst. lia.
Qed.

Lemma dense_rank_eq_iff u v :
  In u s -> In v s -> (dense_rank_of s u = dense_rank_of s v <-> u = v).
Proof.
  intros Hu Hv. split; [|intros ->; reflexivity].
  intros H. destruct (Qc_dec u v) as [[Hlt|Hgt]|Heq].
  - pose proof (dense_rank_strict u v Hu Hlt). lia.
  - pose proof (dense_rank_strict v u Hv Hgt). lia.
  - exact Heq.
Qed.

Lemma dense_rank_one_iff v :
  In v s -> (dense_rank_of s v = 1 <-> forall x, In x s -> (x <= v)%Qc).
Proof.
  intros Hv. split.
  - intros H1 x Hx. apply Qcnot_lt_le. intros Hlt.
    pose proof (dense_rank_strict v x Hv Hlt).
    pose proof (dense_rank_pos x Hx). lia.
  - intros Hmax. pose proof (dense_rank_pos v Hv) as Hpos.
    rewrite dense_rank_of_at_least in *.
    assert (length (at_least s v) <= length [v])%nat as H.
    { apply NoDup_incl_length; [apply NoDup_at_least|].
      intros x Hx. apply in_at_least in Hx. left.
      apply Qcle_antisym; [tauto|]. apply Hmax. tauto. }
    simpl in H. lia.
Qed.

Lemma dense_rank_succ u v :
  In u s -> In v s -> (u < v)%Qc ->
  (forall w, In w s -> ~ ((u < w)%Qc /\ (w < v)%Qc)) ->
  dense_rank_of s u = dense_rank_of s v + 1.
Proof.
  intros Hu Hv Huv Hgap. rewrite !dense_rank_of_at_least.
  assert (Permutation (at_least s u) (u :: at_least s v)) as H.
  { apply NoDup_Permutation.
    - apply NoDup_at_least.
    - constructor; [|apply NoDup_at_least].
      intros Hin. apply in_at_least in Hin. destruct Hin as [_ Hle].
      exact (Qclt_not_le _ _ Huv Hle).
    - intros x. simpl. rewrite !in_at_least. split.
      + intros [Hx Hle]. destruct (Qcle_lt_or_eq _ _ Hle) as [Hlt|Heq]; [|auto].
        right. split; [exact Hx|]. apply Qcnot_lt_le. intros Hxv.
        exact (Hgap x Hx (conj Hlt Hxv)).
      + intros [<-|[Hx Hle]]; [auto using Qcle_refl|].
        split; [exact Hx|].
        apply Qcle_trans with v; [apply Qclt_le_weak; exact Huv|exact Hle]. }
  apply Permutation_length in H. simpl in H. lia.
Qed.

(** Every integer from 1 to the number of distinct values is the rank
    of some entry. *)
Lemma dense_rank_onto i :
  1 <= i <= Z.of_nat (length (nodup Qc_eq_dec s)) ->
  exists v, In v s /\ dense_rank_of s v = i.
Proof.
  intros Hi.
  set (d := nodup Qc_eq_dec s).
  assert (incl (range1 (length d)) (map (dense_rank_of s) d)) as H.
  { apply NoDup_length_incl.
    - apply Finite.Injective_map_NoDup_in; [|apply NoDup_nodup].
      intros x y Hx Hy. apply dense_rank_eq_iff; apply (nodup_In Qc_eq_dec); assumption.
    - rewrite length_map, length_range1. lia.
    - intros r Hr. apply in_map_iff in Hr. destruct Hr as (v & <- & Hv).
      apply nodup_In in Hv. apply in_range1.
      split; [apply dense_rank_pos; exact Hv|apply dense_rank_le_distinct]. }
  specialize (H i (proj2 (in_range1 _ _) Hi)).
  apply in_map_iff in H. destruct H as (v & E & Hv).
  exists v. split; [|exact E]. apply (nodup_In Qc_eq_dec). exact Hv.
Qed.

End DenseRank.

Lemma fold_left_Zmax_spec s v :
  let m := fold_left Z.max s v in
  (m = v \/ In m s) /\ v <= m /\ forall x, In x s -> x <= m.
Proof.
  revert v. induction s as [|y s IH]; intros v; simpl.
  - split; [auto|]. split; [lia|]. intros x [].
  - destruct (IH (Z.max v y)) as (H1 & H2 & H3).
    split; [|split].
    + destruct H1 as [H1|H1]; [|auto]. rewrite H1. lia.
    + lia.
    + intros x [<-|Hx]; [lia|auto].
Qed.

Lemma series_max_Z_spec s m :
  series_max_Z s = Some m <-> In m s /\ forall x, In x s -> x <= m.
Proof.
  destruct s as [|v s]; simpl.
  - split; [discriminate|intros [[] _]].
  - pose proof (fold_left_Zmax_spec s v) as (H1 & H2 & H3). split.
    + intros E. injection E as <-. split.
      * destruct H1 as [->|H1]; auto.
      * intros x [<-|Hx]; auto.
    + intros (Hin & Hmax). f_equal. apply Z.le_antisymm.
      * destruct H1 as [->|H1]; apply Hmax; auto.
      * destruct Hin as [<-|Hin]; auto.
Qed.

Lemma fold_left_max_spec s v :
  let m := fold_left Num.max s v in
  (m = v \/ In m s) /\ (v <= m)%Qc /\ forall x, In x s -> (x <= m)%Qc.
Proof.
  revert v. induction s as [|y s IH]; intros v; simpl.
  - split; [auto|]. split; [apply Qcle_refl|]. intros x [].
  - destruct (IH (Num.max v y)) as (H1 & H2 & H3).
    destruct (Num_max_spec v y) as ((Hv & Hy) & Hor).
    split; [|split].
    + destruct H1 as [H1|H1]; [|auto]. rewrite H1. destruct Hor as [->| ->]; auto.
    + eapply Qcle_trans; eassumption.
    + intros x [<-|Hx]; [eapply Qcle_trans; eassumption|auto].
Qed.

Lemma series_max_spec s m :
  series_max s = Some m <-> In m s /\ forall x, In x s -> (x <= m)%Qc.
Proof.
  destruct s as [|v s]; simpl.
  - split; [discriminate|intros [[] _]].
  - pose proof (fold_left_max_spec s v) as (H1 & H2 & H3). split.
    + intros E. injection E as <-. split.
      * destruct H1 as [->|H1]; auto.
      * intros x [<-|Hx]; auto.
    + intros (Hin & Hmax). f_equal. apply Qcle_antisym.
      * destruct H1 as [->|H1]; apply Hmax; auto.
      * destruct Hin as [<-|Hin]; auto.
Qed.

(* ================================================================= *)
(** ** Tier boundaries *)

Lemma percentile_leb r m a b :
  0 < m ->
  Num.leb (Num.of_Z r / Num.of_Z m)%Qc (Num.lit a b) = (r * Z.pos b <=? a * m).
Proof.
  intros Hm. destruct m as [|p|p]; try lia.
  apply eq_true_iff_eq. rewrite Z.leb_le. unfold Num.leb. rewrite Qle_bool_iff.
  unfold Num.of_Z, Num.lit, Qcdiv, Qcmult, Qcinv, Q2Qc. cbn [this].
  rewrite !Qred_correct.
  change (inject_Z r * / inject_Z (Z.pos p))%Q with (inject_Z r / inject_Z (Z.pos p))%Q.
  rewrite <- Qmake_Qdiv. unfold Qle. simpl. reflexivity.
Qed.

(** The tier of rank [r] among [m] ranks, by integer comparisons:
    [r / m <= 0.25] is [4 r <= m], and so on. *)
Lemma _tier_label_quartiles r m :
  0 < m ->
  _tier_label r m =
    if 4 * r <=? m then "Top"
    else if 2 * r <=? m then "Best"
    else if 4 * r <=? 3 * m then "Next-Best"
    else "Rest".
Proof.
  intros Hm. unfold _tier_label. rewrite !percentile_leb by exact Hm.
  replace (r * 100 <=? 25 * m) with (4 * r <=? m)
    by (apply eq_true_iff_eq; rewrite !Z.leb_le; lia).
  replace (r * 100 <=? 50 * m) with (2 * r <=? m)
    by (apply eq_true_iff_eq; rewrite !Z.leb_le; lia).
  replace (r * 100 <=? 75 * m) with (4 * r <=? 3 * m)
    by (apply eq_true_iff_eq; rewrite !Z.leb_le; lia).
  reflexivity.
Qed.

Lemma _tier_label_first m : 4 <= m -> _tier_label 1 m = "Top".
Proof.
  intros H. rewrite _tier_label_quartiles by lia.
  destruct (Z.leb_spec (4 * 1) m); [reflexivity|lia].
Qed.

Lemma _tier_label_last m : 0 < m -> _tier_label m m = "Rest".
Proof.
  intros H. rewrite _tier_label_quartiles by lia.
  destruct (Z.leb_spec (4 * m) m); [lia|].
  destruct (Z.leb_spec (2 * m) m); [lia|].
  destruct (Z.leb_spec (4 * m) (3 * m)); [lia|reflexivity].
Qed.

(* ================================================================= *)
(** ** Grouping and the rank tables *)

Lemma flat_map_singletons {A B} (f : A -> list B) (h : A -> B) l :
  (forall a, In a l -> f a = [h a]) -> flat_map f l = map h l.
Proof.
  induction l as [|a l IH]; intros H; simpl; [reflexivity|].
  rewrite (H a (or_introl eq_refl)), IH; [reflexivity|].
  intros b Hb. apply H. right. exact Hb.
Qed.

Section Grouping.

Variable group_col : CutoffRecord -> Z.

Lemma group_keys_perm cutoff :
  Permutation (group_keys group_col cutoff) (nodup Z.eq_dec (map group_col cutoff)).
Proof. apply stable_sort_perm. Qed.

Lemma NoDup_group_keys cutoff : NoDup (group_keys group_col cutoff).
Proof.
  apply (Permutation_NoDup (Permutation_sym (group_keys_perm cutoff))).
  apply NoDup_nodup.
Qed.

Lemma in_group_keys cutoff k :
  In k (group_keys group_col cutoff) <-> exists r, In r cutoff /\ group_col r = k.
Proof.
  split.
  - intros H. apply (Permutation_in _ (group_keys_perm cutoff)) in H.
    apply nodup_In, in_map_iff in H. destruct H as (r & E & Hr). eauto.
  - intros (r & Hr & E).
    apply (Permutation_in _ (Permutation_sym (group_keys_perm cutoff))).
    apply nodup_In, in_map_iff. eauto.
Qed.

Lemma in_group_of cutoff k r :
  In r (group_of group_col cutoff k) <-> In r cutoff /\ group_col r = k.
Proof. unfold group_of. rewrite filter_In, Z.eqb_eq. reflexivity. Qed.

Lemma series_max_group cutoff k :
  In k (group_keys group_col cutoff) ->
  series_max (map Catogery_OC_Cutoff (group_of group_col cutoff k)) =
    Some (best_cutoff group_col cutoff k).
Proof.
  intros H. apply in_group_keys in H. destruct H as (r & Hr & E).
  unfold best_cutoff.
  destruct (map Catogery_OC_Cutoff (group_of group_col cutoff k)) eqn:Eg;
    [|reflexivity].
  apply map_eq_nil in Eg.
  assert (In r (group_of group_col cutoff k)) as Hin by (apply in_group_of; auto).
  rewrite Eg in Hin. contradiction.
Qed.

Lemma groupby_max_rows cutoff :
  groupby_max group_col cutoff =
    map (fun k => (k, best_cutoff group_col cutoff k)) (group_keys group_col cutoff).
Proof.
  unfold groupby_max. apply flat_map_singletons.
  intros k Hk. rewrite (series_max_group cutoff k Hk). reflexivity.
Qed.

Lemma groupby_max_keys cutoff :
  map fst (groupby_max group_col cutoff) = group_keys group_col cutoff.
Proof. rewrite groupby_max_rows, map_map. simpl. apply map_id. Qed.

Lemma best_cutoff_spec cutoff k :
  In k (group_keys group_col cutoff) ->
  (exists r, In r cutoff /\ group_col r = k /\
             Catogery_OC_Cutoff r = best_cutoff group_col cutoff k) /\
  (forall r, In r cutoff -> group_col r = k ->
             (Catogery_OC_Cutoff r <= best_cutoff group_col cutoff k)%Qc).
Proof.
  intros Hk. pose proof (series_max_group cutoff k Hk) as H.
  apply series_max_spec in H. destruct H as (Hin & Hmax). split.
  - apply in_map_iff in Hin. destruct Hin as (r & E & Hr).
    apply in_group_of in Hr. exists r. tauto.
  - intros r Hr E. apply Hmax. apply in_map. apply in_group_of. auto.
Qed.

Lemma entity_cutoffs_nonempty cutoff : cutoff <> [] -> entity_cutoffs group_col cutoff <> [].
Proof.
  intros Hne E. destruct cutoff as [|r c]; [congruence|].
  assert (In (group_col r) (group_keys group_col (r :: c))) as Hk.
  { apply in_group_keys. exists r. simpl. auto. }
  unfold entity_cutoffs in E. apply map_eq_nil in E.
  rewrite <- groupby_max_keys, E in Hk. contradiction.
Qed.

Lemma rank_count_pos cutoff : cutoff <> [] -> 1 <= rank_count group_col cutoff.
Proof.
  intros Hne. apply entity_cutoffs_nonempty in Hne.
  unfold rank_count, distinct_cutoffs.
  destruct (entity_cutoffs group_col cutoff) as [|v l] eqn:E; [congruence|].
  assert (In v (nodup Qc_eq_dec (v :: l))) as H by (apply nodup_In; simpl; auto).
  destruct (nodup Qc_eq_dec (v :: l)); [contradiction|simpl; lia].
Qed.

Lemma max_rank_is_rank_count cutoff :
  cutoff <> [] ->
  series_max_Z (rank_dense_desc (entity_cutoffs group_col cutoff)) = Some (rank_count group_col cutoff).
Proof.
  intros Hne. apply series_max_Z_spec. unfold rank_dense_desc. split.
  - destruct (dense_rank_onto (entity_cutoffs group_col cutoff) (rank_count group_col cutoff))
      as (v & Hv & E).
    { pose proof (rank_count_pos cutoff Hne).
      unfold rank_count, distinct_cutoffs in *. lia. }
    apply in_map_iff. eauto.
  - intros x Hx. apply in_map_iff in Hx. destruct Hx as (v & <- & _).
    apply dense_rank_le_distinct.
Qed.

Lemma _rank_and_tier_rows cutoff :
  _rank_and_tier cutoff group_col =
    map (rank_row group_col cutoff) (groupby_max group_col cutoff).
Proof.
  destruct cutoff as [|r c]; [reflexivity|].
  assert (Hne : r :: c <> []) by discriminate.
  revert Hne. generalize (r :: c). intros cutoff Hne.
  unfold _rank_and_tier. cbv zeta.
  change (map snd (groupby_max group_col cutoff)) with (entity_cutoffs group_col cutoff).
  rewrite (max_rank_is_rank_count cutoff Hne).
  unfold rank_dense_desc. unfold entity_cutoffs at 2.
  rewrite map_map.
  rewrite <- (map_id (groupby_max group_col cutoff)) at 1.
  rewrite combine_map_map, map_map. reflexivity.
Qed.

Lemma _rank_and_tier_keys cutoff :
  map rr_key (_rank_and_tier cutoff group_col) = group_keys group_col cutoff.
Proof.
  rewrite _rank_and_tier_rows, map_map. simpl. apply groupby_max_keys.
Qed.

Lemma _rank_and_tier_ranks cutoff :
  map rank (_rank_and_tier cutoff group_col) =
    rank_dense_desc (entity_cutoffs group_col cutoff).
Proof.
  rewrite _rank_and_tier_rows, map_map. unfold rank_dense_desc, entity_cutoffs.
  rewrite map_map. reflexivity.
Qed.

Lemma in__rank_and_tier cutoff e :
  In e (_rank_and_tier cutoff group_col) ->
  In (rr_key e) (group_keys group_col cutoff) /\
  max_cutoff e = best_cutoff group_col cutoff (rr_key e) /\
  In (max_cutoff e) (entity_cutoffs group_col cutoff) /\
  rank e = dense_rank_of (entity_cutoffs group_col cutoff) (max_cutoff e) /\
  tier e = _tier_label (rank e) (rank_count group_col cutoff).
Proof.
  rewrite _rank_and_tier_rows. intros H. apply in_map_iff in H.
  destruct H as ((k, m) & <- & H). simpl.
  assert (In m (entity_cutoffs group_col cutoff)) as Hm
    by (apply in_map_iff; exists (k, m); auto).
  rewrite groupby_max_rows in H. apply in_map_iff in H.
  destruct H as (k' & E & Hk). injection E as -> <-. auto.
Qed.

Lemma in_entity_cutoffs cutoff v :
  In v (entity_cutoffs group_col cutoff) ->
  exists e, In e (_rank_and_tier cutoff group_col) /\ max_cutoff e = v.
Proof.
  intros H. unfold entity_cutoffs in H. apply in_map_iff in H.
  destruct H as (e & <- & He). exists (rank_row group_col cutoff e). split; [|reflexivity].
  rewrite _rank_and_tier_rows. apply in_map. exact He.
Qed.

End Grouping.

(* ================================================================= *)
(** ** The master table *)

Lemma lookup_missing {R} (key : R -> Z) k t :
  ~ In k (map key t) -> lookup key k t = None.
Proof.
  intros H. unfold lookup. destruct (find _ t) as [r|] eqn:E; [|reflexivity].
  apply find_some in E. destruct E as (Hr & E). apply Z.eqb_eq in E.
  exfalso. apply H. apply in_map_iff. eauto.
Qed.

Lemma lookup_unique {R} (key : R -> Z) k t r :
  NoDup (map key t) -> In r t -> key r = k -> lookup key k t = Some r.
Proof.
  unfold lookup. induction t as [|x t IH]; simpl; intros Hnd Hin Hk; [contradiction|].
  inversion Hnd as [|? ? Hx Hnd']; subst.
  destruct Hin as [->|Hin].
  - rewrite Z.eqb_refl. reflexivity.
  - destruct (Z.eqb_spec (key x) (key r)) as [E|_]; [|auto].
    exfalso. apply Hx. rewrite E. apply in_map. exact Hin.
Qed.

Lemma filter_unique_key {R} (key : R -> Z) k t :
  NoDup (map key t) ->
  filter (fun r => key r =? k) t =
    match lookup key k t with
    | Some r => [r]
    | None => []
    end.
Proof.
  unfold lookup. induction t as [|x t IH]; simpl; intros Hnd; [reflexivity|].
  inversion Hnd as [|? ? Hx Hnd']; subst.
  destruct (Z.eqb_spec (key x) k) as [E|_]; [|auto].
  f_equal. rewrite (IH Hnd').
  fold (lookup key k t). rewrite lookup_missing; [reflexivity|]. congruence.
Qed.

Lemma merge_left_unique {L R L'} (key_l : L -> Z) (key_r : R -> Z)
  (add : L -> option R -> L') left right :
  NoDup (map key_r right) ->
  merge_left key_l key_r add left right =
    map (fun l => add l (lookup key_r (key_l l) right)) left.
Proof.
  intros Hnd. unfold merge_left. apply flat_map_singletons.
  intros l _. rewrite (filter_unique_key key_r (key_l l) right Hnd).
  destruct (lookup key_r (key_l l) right); reflexivity.
Qed.

Lemma build_master_table_rows cutoff districts colleges branches ranks :
  unique_keys districts colleges branches ranks ->
  build_master_table cutoff districts colleges branches ranks =
    map (joined_row districts colleges branches ranks) cutoff.
Proof.
  intros (H1 & H2 & H3 & H4 & H5 & H6 & H7). unfold build_master_table.
  rewrite (merge_left_unique _ _ with_district _ _ H1).
  rewrite (merge_left_unique _ _ with_college _ _ H2).
  rewrite (merge_left_unique _ _ with_branch _ _ H3).
  rewrite (merge_left_unique _ _ with_district_rt _ _ H4).
  rewrite (merge_left_unique _ _ with_department_rt _ _ H5).
  rewrite (merge_left_unique _ _ with_branch_rt _ _ H6).
  rewrite (merge_left_unique _ _ with_college_rt _ _ H7).
  rewrite !map_map. apply map_ext. intros c. reflexivity.
Qed.

(** The rank tables that [compute_ranks_and_tiers] builds have one row per
    key. *)
Lemma compute_ranks_and_tiers_unique_keys cutoff :
  let ranks := compute_ranks_and_tiers cutoff in
  NoDup (map rr_key (district_ranks ranks)) /\
  NoDup (map rr_key (department_ranks ranks)) /\
  NoDup (map rr_key (branch_ranks ranks)) /\
  NoDup (map rr_key (college_ranks ranks)).
Proof.
  simpl. rewrite !_rank_and_tier_keys. auto using NoDup_group_keys.
Qed.

(** C8. When each reference table and each rank table has at most one row
    per join key, the master table has exactly the cutoff records as its
    rows, one row per record and in the same order; a record whose key is
    absent from a joined table has that table's columns empty, and a
    record whose key is present has them filled from the matching row. *)
Theorem master_table_one_row_per_record :
  forall cutoff districts colleges branches ranks,
    unique_keys districts colleges branches ranks ->
    let master := build_master_table cutoff districts colleges branches ranks in
    length master = length cutoff /\
    map cutoff_of master = cutoff /\
    (forall m, In m master ->
       let c := cutoff_of m in
       (~ In (District_ID c) (map dr_District_ID districts) -> District m = None) /\
       (~ In (College_code c) (map cr_College_code colleges) -> College_Name m = None) /\
       (~ In (Branch_Code c) (map br_Branch_Code branches) -> Branch_Name m = None) /\
       (~ In (District_ID c) (map rr_key (district_ranks ranks)) ->
          district_rt m = None) /\
       (~ In (Department_ID c) (map rr_key (department_ranks ranks)) ->
          department_rt m = None) /\
       (~ In (Branch_Code c) (map rr_key (branch_ranks ranks)) -> branch_rt m = None) /\
       (~ In (College_code c) (map rr_key (college_ranks ranks)) ->
          college_rt m = None)) /\
    (forall m, In m master ->
       let c := cutoff_of m in
       (forall d, In d districts -> dr_District_ID d = District_ID c ->
                  District m = Some (dr_District d)) /\
       (forall x, In x colleges -> cr_College_code x = College_code c ->
                  College_Name m = Some (cr_College_Name x)) /\
       (forall b, In b branches -> br_Branch_Code b = Branch_Code c ->
                  Branch_Name m = Some (br_Branch_Name b)) /\
       (forall r, In r (district_ranks ranks) -> rr_key r = District_ID c ->
                  district_rt m = Some r) /\
       (forall r, In r (department_ranks ranks) -> rr_key r = Department_ID c ->
                  department_rt m = Some r) /\
       (forall r, In r (branch_ranks ranks) -> rr_key r = Branch_Code c ->
                  branch_rt m = Some r) /\
       (forall r, In r (college_ranks ranks) -> rr_key r = College_code c ->
                  college_rt m = Some r)).
Proof.
  intros cutoff districts colleges branches ranks Hu master.
  assert (E : master = map (joined_row districts colleges branches ranks) cutoff)
    by (apply build_master_table_rows; exact Hu).
  destruct Hu as (H1 & H2 & H3 & H4 & H5 & H6 & H7).
  rewrite E. split; [apply length_map|]. split.
  { rewrite map_map. simpl. apply map_id. }
  split; intros m Hm; apply in_map_iff in Hm; destruct Hm as (c & <- & _);
    unfold joined_row; simpl.
  - repeat split; intros H; rewrite (lookup_missing _ _ _ H); reflexivity.
  - repeat split; intros r Hr Hk.
    + rewrite (lookup_unique _ _ _ r H1 Hr Hk). reflexivity.
    + rewrite (lookup_unique _ _ _ r H2 Hr Hk). reflexivity.
    + rewrite (lookup_unique _ _ _ r H3 Hr Hk). reflexivity.
    + apply (lookup_unique _ _ _ r H4 Hr Hk).
    + apply (lookup_unique _ _ _ r H5 Hr Hk).
    + apply (lookup_unique _ _ _ r H6 Hr Hk).
    + apply (lookup_unique _ _ _ r H7 Hr Hk).
Qed.

(* ================================================================= *)
(** ** The four-entity scenario *)

Lemma dense_rank_of_ext s s' v :
  (forall x, In x s <-> In x s') -> dense_rank_of s v = dense_rank_of s' v.
Proof.
  intros H. unfold dense_rank_of. f_equal. apply Permutation_length.
  apply NoDup_Permutation; try apply NoDup_nodup.
  intros x. rewrite !nodup_In, !filter_In, H. reflexivity.
Qed.

Lemma nodup_length_ext (s s' : list Qc) :
  (forall x, In x s <-> In x s') ->
  length (nodup Qc_eq_dec s) = length (nodup Qc_eq_dec s').
Proof.
  intros H. apply Permutation_length.
  apply NoDup_Permutation; try apply NoDup_nodup.
  intros x. rewrite !nodup_In. apply H.
Qed.

Lemma NoDup_four {A} (a b c d : A) :
  NoDup [a; b; c; d] -> a <> b /\ a <> c /\ a <> d /\ b <> c /\ b <> d /\ c <> d.
Proof.
  intros H.
  inversion H as [|? ? Ha H']; subst. inversion H' as [|? ? Hb H'']; subst.
  inversion H'' as [|? ? Hc _]; subst. simpl in *.
  repeat split; intros ->; tauto.
Qed.

Lemma best_cutoff_single g cutoff k v :
  In k (group_keys g cutoff) ->
  (forall r, In r cutoff -> g r = k -> Catogery_OC_Cutoff r = v) ->
  best_cutoff g cutoff k = v.
Proof.
  intros Hk H. destruct (best_cutoff_spec g cutoff k Hk) as ((r & Hr & E & <-) & _).
  apply H; assumption.
Qed.

Lemma in__rank_and_tier_iff g cutoff e :
  In e (_rank_and_tier cutoff g) <->
  exists k, In k (group_keys g cutoff) /\
            e = rank_row g cutoff (k, best_cutoff g cutoff k).
Proof.
  rewrite _rank_and_tier_rows, groupby_max_rows, map_map, in_map_iff.
  split; intros (k & H1 & H2); exists k; auto.
Qed.

(** C5. For a non-empty set of cutoff records and any category, the rank
    table has one row per entity holding the entity's largest cutoff, and
    its ranks are a dense ranking of those values: some entity has rank 1,
    rank 1 goes exactly to the highest value, equal values share a rank, a
    lower value has a larger rank, the next lower distinct value has the
    next integer, and every integer from 1 up to an assigned rank is
    assigned. *)
Theorem dense_ranking_of_max_cutoffs :
  forall (group_col : CutoffRecord -> Z) (cutoff : list CutoffRecord),
    cutoff <> [] ->
    let out := _rank_and_tier cutoff group_col in
    NoDup (map rr_key out) /\
    (forall r, In r cutoff -> exists e, In e out /\ rr_key e = group_col r) /\
    (forall e, In e out ->
       (exists r, In r cutoff /\ group_col r = rr_key e /\
                  Catogery_OC_Cutoff r = max_cutoff e) /\
       (forall r, In r cutoff -> group_col r = rr_key e ->
                  (Catogery_OC_Cutoff r <= max_cutoff e)%Qc)) /\
    (exists e, In e out /\ rank e = 1) /\
    (forall e, In e out ->
       (rank e = 1 <-> forall e', In e' out -> (max_cutoff e' <= max_cutoff e)%Qc)) /\
    (forall e e', In e out -> In e' out ->
       (rank e = rank e' <-> max_cutoff e = max_cutoff e')) /\
    (forall e e', In e out -> In e' out ->
       (rank e < rank e' <-> (max_cutoff e' < max_cutoff e)%Qc)) /\
    (forall e e', In e out -> In e' out ->
       (max_cutoff e' < max_cutoff e)%Qc ->
       (forall e'', In e'' out ->
          ~ ((max_cutoff e' < max_cutoff e'')%Qc /\ (max_cutoff e'' < max_cutoff e)%Qc)) ->
       rank e' = rank e + 1) /\
    (forall e i, In e out -> 1 <= i <= rank e -> exists e', In e' out /\ rank e' = i).
Proof.
  intros g cutoff Hne out.
  assert (Hval : forall v, In v (entity_cutoffs g cutoff) ->
                   exists e, In e out /\ max_cutoff e = v /\
                             rank e = dense_rank_of (entity_cutoffs g cutoff) v).
  { intros v Hv. destruct (in_entity_cutoffs g cutoff v Hv) as (e & He & E).
    exists e. split; [exact He|]. split; [exact E|].
    destruct (in__rank_and_tier g cutoff e He) as (_ & _ & _ & Hr & _).
    rewrite Hr, E. reflexivity. }
  split; [|split; [|split; [|split; [|split; [|split; [|split; [|split]]]]]]].
  - unfold out. rewrite _rank_and_tier_keys. apply NoDup_group_keys.
  - intros r Hr.
    assert (In (g r) (map rr_key out)) as H.
    { unfold out. rewrite _rank_and_tier_keys. apply in_group_keys. eauto. }
    apply in_map_iff in H. destruct H as (e & E & He). eauto.
  - intros e He. destruct (in__rank_and_tier g cutoff e He) as (Hk & Hm & _).
    rewrite Hm. apply best_cutoff_spec. exact Hk.
  - destruct (dense_rank_onto (entity_cutoffs g cutoff) 1) as (v & Hv & E).
    { pose proof (rank_count_pos g cutoff Hne).
      unfold rank_count, distinct_cutoffs in *. lia. }
    destruct (Hval v Hv) as (e & He & _ & Hr). exists e. split; [exact He|lia].
  - intros e He. destruct (in__rank_and_tier g cutoff e He) as (_ & _ & Hin & Hr & _).
    rewrite Hr, (dense_rank_one_iff _ _ Hin). split.
    + intros H e' He'.
      destruct (in__rank_and_tier g cutoff e' He') as (_ & _ & Hin' & _). auto.
    + intros H x Hx. destruct (Hval x Hx) as (e' & He' & <- & _). auto.
  - intros e e' He He'.
    destruct (in__rank_and_tier g cutoff e He) as (_ & _ & Hin & Hr & _).
    destruct (in__rank_and_tier g cutoff e' He') as (_ & _ & Hin' & Hr' & _).
    rewrite Hr, Hr'. apply dense_rank_eq_iff; assumption.
  - intros e e' He He'.
    destruct (in__rank_and_tier g cutoff e He) as (_ & _ & Hin & Hr & _).
    destruct (in__rank_and_tier g cutoff e' He') as (_ & _ & Hin' & Hr' & _).
    rewrite Hr, Hr'. apply dense_rank_lt_iff; assumption.
  - intros e e' He He' Hlt Hgap.
    destruct (in__rank_and_tier g cutoff e He) as (_ & _ & Hin & Hr & _).
    destruct (in__rank_and_tier g cutoff e' He') as (_ & _ & Hin' & Hr' & _).
    rewrite Hr, Hr'. apply dense_rank_succ; try assumption.
    intros w Hw. destruct (Hval w Hw) as (e'' & He'' & <- & _). auto.
  - intros e i He Hi.
    destruct (in__rank_and_tier g cutoff e He) as (_ & _ & Hin & Hr & _).
    destruct (dense_rank_onto (entity_cutoffs g cutoff) i) as (v & Hv & E).
    { pose proof (dense_rank_le_distinct (entity_cutoffs g cutoff) (max_cutoff e)). lia. }
    destruct (Hval v Hv) as (e' & He' & _ & Hr'). exists e'. split; [exact He'|lia].
Qed.

Lemma rank_assigned g cutoff i :
  1 <= i <= rank_count g cutoff ->
  exists e, In e (_rank_and_tier cutoff g) /\ rank e = i.
Proof.
  intros Hi.
  destruct (dense_rank_onto (entity_cutoffs g cutoff) i) as (v & Hv & E).
  { unfold rank_count, distinct_cutoffs in Hi. exact Hi. }
  destruct (in_entity_cutoffs g cutoff v Hv) as (e & He & Em).
  exists e. split; [exact He|].
  destruct (in__rank_and_tier g cutoff e He) as (_ & _ & _ & Hr & _).
  rewrite Hr, Em. exact E.
Qed.

Lemma rank_count_nonempty g cutoff : 1 <= rank_count g cutoff -> cutoff <> [].
Proof. intros H ->. vm_compute in H. congruence. Qed.

Lemma rank_bounds g cutoff e :
  In e (_rank_and_tier cutoff g) -> 1 <= rank e <= rank_count g cutoff.
Proof.
  intros He. destruct (in__rank_and_tier g cutoff e He) as (_ & _ & Hin & Hr & _).
  rewrite Hr. split; [apply dense_rank_pos; exact Hin|apply dense_rank_le_distinct].
Qed.

(** C4. When the entities' best cutoffs take at least four distinct
    values, the largest rank is that number of values (so at least 4),
    every tier is [_tier_label] of the rank and the largest rank, rank 1
    and the largest rank are both assigned, every entity of rank 1 has tier
    Top and every entity of the largest rank has tier Rest. *)
Theorem first_rank_top_last_rank_rest :
  forall (group_col : CutoffRecord -> Z) (cutoff : list CutoffRecord),
    (4 <= length (distinct_cutoffs group_col cutoff))%nat ->
    let out := _rank_and_tier cutoff group_col in
    exists max_rank,
      series_max_Z (map rank out) = Some max_rank /\
      max_rank = Z.of_nat (length (distinct_cutoffs group_col cutoff)) /\
      4 <= max_rank /\
      (exists e, In e out /\ rank e = 1) /\
      (exists e, In e out /\ rank e = max_rank) /\
      (forall e, In e out ->
         tier e = _tier_label (rank e) max_rank /\
         (rank e = 1 -> tier e = "Top") /\
         (rank e = max_rank -> tier e = "Rest")).
Proof.
  intros g cutoff H4 out.
  assert (Hc : 4 <= rank_count g cutoff) by (unfold rank_count; lia).
  assert (Hne : cutoff <> []) by (apply (rank_count_nonempty g); lia).
  assert (Hmax : series_max_Z (map rank out) = Some (rank_count g cutoff)).
  { unfold out. rewrite _rank_and_tier_ranks. apply max_rank_is_rank_count. exact Hne. }
  exists (rank_count g cutoff).
  split; [exact Hmax|]. split; [reflexivity|]. split; [exact Hc|].
  split; [|split].
  - destruct (rank_assigned g cutoff 1) as (e & He & E); [lia|]. eauto.
  - destruct (rank_assigned g cutoff (rank_count g cutoff))
      as (e & He & E); [lia|]. eauto.
  - intros e He. destruct (in__rank_and_tier g cutoff e He) as (_ & _ & _ & _ & Ht).
    split; [exact Ht|]. split; intros E; rewrite Ht, E.
    + apply _tier_label_first. exact Hc.
    + apply _tier_label_last. lia.
Qed.

(** Records that all carry one cutoff value give every entity that value
    as its best cutoff. *)
Lemma one_cutoff_value_one_best_cutoff g cutoff v :
  cutoff <> [] ->
  (forall r, In r cutoff -> Catogery_OC_Cutoff r = v) ->
  length (distinct_cutoffs g cutoff) = 1%nat.
Proof.
  intros Hne Hall. unfold distinct_cutoffs.
  rewrite (nodup_length_ext _ [v]); [reflexivity|].
  assert (Hsub : forall x, In x (entity_cutoffs g cutoff) -> x = v).
  { intros x Hx. unfold entity_cutoffs in Hx.
    rewrite groupby_max_rows, map_map in Hx. simpl in Hx.
    apply in_map_iff in Hx. destruct Hx as (k & <- & Hk).
    apply best_cutoff_single; [exact Hk|]. intros r Hr _. apply Hall. exact Hr. }
  intros x. split.
  - intros Hx. left. symmetry. apply Hsub. exact Hx.
  - intros [<-|[]].
    destruct (entity_cutoffs g cutoff) as [|y l] eqn:E.
    + exfalso. apply (entity_cutoffs_nonempty g cutoff Hne). exact E.
    + rewrite <- (Hsub y); [left; reflexivity|]. left. reflexivity.
Qed.

(** C2 (amended). When the entities' best cutoffs all have one value, the
    largest rank is 1, and every entity has rank 1 and tier Rest. *)
Theorem single_value_rank_one_tier_rest :
  forall (group_col : CutoffRecord -> Z) (cutoff : list CutoffRecord),
    length (distinct_cutoffs group_col cutoff) = 1%nat ->
    let out := _rank_and_tier cutoff group_col in
    out <> [] /\
    series_max_Z (map rank out) = Some 1 /\
    (forall e, In e out -> rank e = 1 /\ tier e = "Rest").
Proof.
  intros g cutoff H1 out.
  assert (Hc : rank_count g cutoff = 1) by (unfold rank_count; lia).
  assert (Hne : cutoff <> []) by (apply (rank_count_nonempty g); lia).
  split; [|split].
  - destruct (rank_assigned g cutoff 1) as (e & He & _); [lia|].
    intros E. fold out in He. rewrite E in He. contradiction.
  - unfold out. rewrite _rank_and_tier_ranks, <- Hc.
    apply max_rank_is_rank_count. exact Hne.
  - intros e He. pose proof (rank_bounds g cutoff e He) as Hb.
    destruct (in__rank_and_tier g cutoff e He) as (_ & _ & _ & _ & Ht).
    assert (rank e = 1) as E by lia. split; [exact E|].
    rewrite Ht, E, Hc. reflexivity.
Qed.

(** C3 (amended). Four entities whose cutoffs are 100, 100, 90 and 80
    get the dense ranks 1, 1, 2 and 3 and, with three ranks in all, the
    tiers Best, Best, Next-Best and Rest. *)
Theorem four_entities_ranks_and_tiers :
  forall (group_col : CutoffRecord -> Z) (cutoff : list CutoffRecord) k1 k2 k3 k4,
    NoDup [k1; k2; k3; k4] ->
    map (fun r => (group_col r, Catogery_OC_Cutoff r)) cutoff =
      [(k1, Num.of_Z 100); (k2, Num.of_Z 100); (k3, Num.of_Z 90); (k4, Num.of_Z 80)] ->
    Permutation (_rank_and_tier cutoff group_col)
      [mkRank k1 (Num.of_Z 100) 1 "Best"; mkRank k2 (Num.of_Z 100) 1 "Best";
       mkRank k3 (Num.of_Z 90) 2 "Next-Best"; mkRank k4 (Num.of_Z 80) 3 "Rest"].
Proof.
  intros g cutoff k1 k2 k3 k4 Hnd Hmap.
  destruct (NoDup_four _ _ _ _ Hnd) as (N12 & N13 & N14 & N23 & N24 & N34).
  destruct cutoff as [|r1 [|r2 [|r3 [|r4 [|]]]]]; try discriminate.
  simpl in Hmap. injection Hmap as G1 C1 G2 C2 G3 C3 G4 C4.
  set (cutoff := [r1; r2; r3; r4]).
  assert (Hkeys : forall k, In k (group_keys g cutoff) <-> In k [k1; k2; k3; k4]).
  { intros k. rewrite in_group_keys. unfold cutoff. simpl. split.
    - intros (r & [<-|[<-|[<-|[<-|[]]]]] & <-); auto.
    - intros [<-|[<-|[<-|[<-|[]]]]]; eauto 7. }
  assert (B1 : best_cutoff g cutoff k1 = Num.of_Z 100).
  { apply best_cutoff_single; [apply Hkeys; simpl; auto|].
    intros r [<-|[<-|[<-|[<-|[]]]]] E; congruence. }
  assert (B2 : best_cutoff g cutoff k2 = Num.of_Z 100).
  { apply best_cutoff_single; [apply Hkeys; simpl; auto|].
    intros r [<-|[<-|[<-|[<-|[]]]]] E; congruence. }
  assert (B3 : best_cutoff g cutoff k3 = Num.of_Z 90).
  { apply best_cutoff_single; [apply Hkeys; simpl; auto|].
    intros r [<-|[<-|[<-|[<-|[]]]]] E; congruence. }
  assert (B4 : best_cutoff g cutoff k4 = Num.of_Z 80).
  { apply best_cutoff_single; [apply Hkeys; simpl; auto|].
    intros r [<-|[<-|[<-|[<-|[]]]]] E; congruence. }
  assert (Hvals : forall v, In v (entity_cutoffs g cutoff) <->
                    In v [Num.of_Z 100; Num.of_Z 100; Num.of_Z 90; Num.of_Z 80]).
  { intros v. unfold entity_cutoffs. rewrite groupby_max_rows, map_map. simpl.
    rewrite in_map_iff. split.
    - intros (k & <- & Hk). apply Hkeys in Hk.
      destruct Hk as [<-|[<-|[<-|[<-|[]]]]]; auto.
    - intros [<-|[<-|[<-|[<-|[]]]]];
        [exists k1|exists k2|exists k3|exists k4]; (split; [assumption|]);
        apply Hkeys; simpl; auto. }
  assert (Hcount : rank_count g cutoff = 3).
  { unfold rank_count, distinct_cutoffs. rewrite (nodup_length_ext _ _ Hvals).
    reflexivity. }
  assert (Hrow : forall k v, best_cutoff g cutoff k = v ->
            rank_row g cutoff (k, best_cutoff g cutoff k) =
              mkRank k v
                (dense_rank_of [Num.of_Z 100; Num.of_Z 100; Num.of_Z 90; Num.of_Z 80] v)
                (_tier_label
                   (dense_rank_of [Num.of_Z 100; Num.of_Z 100; Num.of_Z 90; Num.of_Z 80] v)
                   3)).
  { intros k v ->. unfold rank_row. simpl fst. simpl snd.
    rewrite Hcount, (dense_rank_of_ext _ _ _ Hvals). reflexivity. }
  apply NoDup_Permutation.
  - apply (NoDup_map_inv rr_key). rewrite _rank_and_tier_keys. apply NoDup_group_keys.
  - apply (NoDup_map_inv rr_key). exact Hnd.
  - intros e. rewrite in__rank_and_tier_iff. split.
    + intros (k & Hk & ->). apply Hkeys in Hk.
      destruct Hk as [<-|[<-|[<-|[<-|[]]]]].
      * rewrite (Hrow _ _ B1). simpl. auto.
      * rewrite (Hrow _ _ B2). simpl. auto.
      * rewrite (Hrow _ _ B3). simpl. auto.
      * rewrite (Hrow _ _ B4). simpl. auto 6.
    + intros [<-|[<-|[<-|[<-|[]]]]];
        [exists k1|exists k2|exists k3|exists k4];
        (split; [apply Hkeys; simpl; auto|]).
      * rewrite (Hrow _ _ B1). reflexivity.
      * rewrite (Hrow _ _ B2). reflexivity.
      * rewrite (Hrow _ _ B3). reflexivity.
      * rewrite (Hrow _ _ B4). reflexivity.
Qed.

(* ================================================================= *)
(** ** Concrete runs *)

Example ex_four_ranks_tiers :
  map (fun e => (rr_key e, rank e, tier e)) (_rank_and_tier ex_four District_ID) =
    [(1, 1, "Best"); (2, 1, "Best"); (3, 2, "Next-Best"); (4, 3, "Rest")].
Proof. reflexivity. Qed.

Example ex_five_ranks_tiers :
  map (fun e => (rr_key e, rank e, tier e)) (_rank_and_tier ex_five District_ID) =
    [(1, 1, "Top"); (2, 2, "Best"); (3, 3, "Next-Best"); (4, 4, "Rest");
     (5, 5, "Rest"); (6, 5, "Rest")].
Proof. reflexivity. Qed.

Example ex_table_scored :
  option_map
    (map (fun o => (District_ID (cutoff_of (row (scored o))),
                    sum_of_tiers (scored o),
                    option_map this (final_score (scored o)),
                    choose_order o)))
    (apply_tier_filtering_and_scoring ex_table ALL_TIERS ALL_TIERS ["Top"; "Best"]
       w25 w25 w25 w25) =
  Some [(1, 5, Some (3 # 2)%Q, 1); (2, 5, Some (3 # 2)%Q, 2);
        (3, 2, Some (5 # 4)%Q, 3); (4, 2, Some (1 # 1)%Q, 4); (9, 0, None, 5)].
Proof. vm_compute. reflexivity. Qed.

(** Ten ranks in every category, weights 25 each: the row ranked first in
    all four categories scores 10.00. *)
Example final_score_all_first :
  option_map round2
    (cell2 Qcplus
       (cell2 Qcplus
          (cell2 Qcplus
             (weighted_score (Some 10) (Some 1) (Num.lit 25 100))
             (weighted_score (Some 10) (Some 1) (Num.lit 25 100)))
          (weighted_score (Some 10) (Some 1) (Num.lit 25 100)))
       (weighted_score (Some 10) (Some 1) (Num.lit 25 100))) =
  Some (Num.of_Z 10).
Proof. simpl. f_equal. apply Qc_is_canon. reflexivity. Qed.

(** C2 as stated fails: two districts that share the one cutoff value 100
    both get tier Rest, not Top. *)
Lemma single_value_tier_is_not_top :
  length (distinct_cutoffs District_ID ex_single) = 1%nat /\
  ~ (series_max_Z (map rank (_rank_and_tier ex_single District_ID)) = Some 1 /\
     forall e, In e (_rank_and_tier ex_single District_ID) ->
               rank e = 1 /\ tier e = "Top").
Proof.
  split; [reflexivity|]. intros [_ H].
  assert (In "Rest" (map tier (_rank_and_tier ex_single District_ID))) as Hin
    by (vm_compute; auto).
  apply in_map_iff in Hin. destruct Hin as (e & E & He).
  destruct (H e He) as [_ Ht]. rewrite Ht in E. discriminate E.
Qed.

(** C3 as stated fails: for the cutoffs 100, 100, 90, 80 the tiers are not
    Top, Top, Best, Next-Best. *)
Lemma four_entities_tiers_not_as_claimed :
  map (fun r => (District_ID r, Catogery_OC_Cutoff r)) ex_four =
    [(1, Num.of_Z 100); (2, Num.of_Z 100); (3, Num.of_Z 90); (4, Num.of_Z 80)] /\
  ~ (map rank (_rank_and_tier ex_four District_ID) = [1; 1; 2; 3] /\
     map tier (_rank_and_tier ex_four District_ID) =
       ["Top"; "Top"; "Best"; "Next-Best"]).
Proof.
  split; [reflexivity|]. intros [_ H]. vm_compute in H. discriminate H.
Qed.

Lemma pipeline_sorted_by_keys_witness :
  exists out,
    apply_tier_filtering_and_scoring ex_table ALL_TIERS ALL_TIERS ["Top"; "Best"]
      w25 w25 w25 w25 = Some out /\
    Permutation (map (fun o => row (scored o)) out) ex_table /\
    (forall r, In r ex_table -> exists o, In o out /\ row (scored o) = r) /\
    (forall o, In o out ->
       In (row (scored o)) ex_table /\
       sum_of_tiers (scored o) =
         tier_score (college_tier (row (scored o))) ALL_TIERS +
         tier_score (branch_tier (row (scored o))) ALL_TIERS +
         tier_score (district_tier (row (scored o))) ["Top"; "Best"]) /\
    StronglySorted in_order (map scored out) /\
    (forall i j a b,
        nth_error out i = Some a -> nth_error out j = Some b ->
        sum_of_tiers (scored b) < sum_of_tiers (scored a) -> (i < j)%nat).
Proof.
  exact (pipeline_sorted_by_keys ex_table ALL_TIERS ALL_TIERS ["Top"; "Best"]
           w25 w25 w25 w25).
Defined.

Lemma single_value_rank_one_tier_rest_witness :
  length (distinct_cutoffs District_ID ex_single) = 1%nat /\
  _rank_and_tier ex_single District_ID <> [] /\
  series_max_Z (map rank (_rank_and_tier ex_single District_ID)) = Some 1 /\
  (forall e, In e (_rank_and_tier ex_single District_ID) ->
             rank e = 1 /\ tier e = "Rest").
Proof.
  split; [reflexivity|].
  apply (single_value_rank_one_tier_rest District_ID ex_single). reflexivity.
Defined.

Lemma four_entities_ranks_and_tiers_witness :
  Permutation (_rank_and_tier ex_four District_ID)
    [mkRank 1 (Num.of_Z 100) 1 "Best"; mkRank 2 (Num.of_Z 100) 1 "Best";
     mkRank 3 (Num.of_Z 90) 2 "Next-Best"; mkRank 4 (Num.of_Z 80) 3 "Rest"].
Proof.
  apply (four_entities_ranks_and_tiers District_ID ex_four 1 2 3 4).
  - repeat constructor; simpl; lia.
  - reflexivity.
Defined.

Lemma first_rank_top_last_rank_rest_witness :
  (4 <= length (distinct_cutoffs District_ID ex_five))%nat /\
  exists max_rank,
    series_max_Z (map rank (_rank_and_tier ex_five District_ID)) = Some max_rank /\
    max_rank = Z.of_nat (length (distinct_cutoffs District_ID ex_five)) /\
    4 <= max_rank /\
    (exists e, In e (_rank_and_tier ex_five District_ID) /\ rank e = 1) /\
    (exists e, In e (_rank_and_tier ex_five District_ID) /\ rank e = max_rank) /\
    (forall e, In e (_rank_and_tier ex_five District_ID) ->
       tier e = _tier_label (rank e) max_rank /\
       (rank e = 1 -> tier e = "Top") /\
       (rank e = max_rank -> tier e = "Rest")).
Proof.
  assert (H : (4 <= length (distinct_cutoffs District_ID ex_five))%nat)
    by (vm_compute; lia).
  split; [exact H|].
  exact (first_rank_top_last_rank_rest District_ID ex_five H).
Defined.

Lemma dense_ranking_of_max_cutoffs_witness :
  ex_five <> [] /\
  exists e, In e (_rank_and_tier ex_five District_ID) /\ rank e = 1.
Proof.
  assert (H : ex_five <> []) by discriminate.
  split; [exact H|].
  exact (proj1 (proj2 (proj2 (proj2
           (dense_ranking_of_max_cutoffs District_ID ex_five H))))).
Defined.

Lemma tier_scores_and_sum_witness :
  exists out,
    apply_tier_filtering_and_scoring ex_table ALL_TIERS ALL_TIERS ["Top"; "Best"]
      w25 w25 w25 w25 = Some out /\
    Permutation (map (fun o => row (scored o)) out) ex_table /\
    (forall r, In r ex_table -> exists o, In o out /\ row (scored o) = r) /\
    forall o, In o out ->
      let s := scored o in
      In (row s) ex_table /\
      scores_tier (college_tier (row s)) ALL_TIERS (college_tier_score s) /\
      scores_tier (branch_tier (row s)) ALL_TIERS (branch_tier_score s) /\
      scores_tier (district_tier (row s)) ["Top"; "Best"] (district_tier_score s) /\
      sum_of_tiers s =
        college_tier_score s + branch_tier_score s + district_tier_score s /\
      0 <= sum_of_tiers s <= 12 /\
      (sum_of_tiers s = 0 <->
         ~ tier_selected (college_tier (row s)) ALL_TIERS /\
         ~ tier_selected (branch_tier (row s)) ALL_TIERS /\
         ~ tier_selected (district_tier (row s)) ["Top"; "Best"]).
Proof.
  apply (tier_scores_and_sum ex_table ALL_TIERS ALL_TIERS ["Top"; "Best"]
           w25 w25 w25 w25);
    intros t Ht; simpl in *; tauto.
Defined.

Lemma normalize_weights_sum_one_witness :
  exists d' dep' b' c',
    normalize_weights w25 w25 w25 w25 = Some (d', dep', b', c') /\
    (d' + dep' + b' + c' = 1)%Qc /\
    ((w25 = 0%Qc /\ w25 = 0%Qc /\ w25 = 0%Qc /\ w25 = 0%Qc /\
      (d', dep', b', c') =
        (Num.lit 25 100, Num.lit 25 100, Num.lit 25 100, Num.lit 25 100)) \/
     ((w25 + w25 + w25 + w25)%Qc <> 0%Qc /\
      d' = (w25 / (w25 + w25 + w25 + w25))%Qc /\
      dep' = (w25 / (w25 + w25 + w25 + w25))%Qc /\
      b' = (w25 / (w25 + w25 + w25 + w25))%Qc /\
      c' = (w25 / (w25 + w25 + w25 + w25))%Qc)).
Proof.
  apply (normalize_weights_sum_one w25 w25 w25 w25); vm_compute; discriminate.
Defined.

Lemma master_table_one_row_per_record_witness :
  unique_keys ex_districts [] [] (compute_ranks_and_tiers ex_four) /\
  length ex_master = length ex_four /\
  map cutoff_of ex_master = ex_four.
Proof.
  assert (H : unique_keys ex_districts [] [] (compute_ranks_and_tiers ex_four)).
  { repeat split; vm_compute; repeat constructor; simpl; lia. }
  split; [exact H|].
  pose proof (master_table_one_row_per_record ex_four ex_districts [] []
                (compute_ranks_and_tiers ex_four) H) as (H1 & H2 & _).
  split; [exact H1|exact H2].
Defined.

Lemma unranked_rows_sorted_last_witness :
  exists out,
    apply_tier_filtering_and_scoring ex_table ALL_TIERS ALL_TIERS ["Top"; "Best"]
      w25 w25 w25 w25 = Some out /\
    (forall u, In u ex_table -> exists o, In o out /\ row (scored o) = u) /\
    (forall i j ou orr,
        nth_error out i = Some ou -> nth_error out j = Some orr ->
        no_rank_data (row (scored ou)) -> fully_ranked (row (scored orr)) ->
        (j < i)%nat).
Proof.
  exact (unranked_rows_sorted_last ex_table ALL_TIERS ALL_TIERS ["Top"; "Best"]
           w25 w25 w25 w25).
Defined.

Lemma pipeline_permutation_choose_order_witness :
  exists out,
    apply_tier_filtering_and_scoring ex_table ALL_TIERS ALL_TIERS ["Top"; "Best"]
      w25 w25 w25 w25 = Some out /\
    Permutation (map (fun o => row (scored o)) out) ex_table /\
    length out = length ex_table /\
    map choose_order out = map Z.of_nat (seq 1 (length ex_table)) /\
    (forall i o, nth_error out i = Some o -> choose_order o = Z.of_nat i + 1).
Proof.
  exact (pipeline_permutation_choose_order ex_table ALL_TIERS ALL_TIERS ["Top"; "Best"]
           w25 w25 w25 w25).
Defined.

(* ================================================================= *)
(** * Further properties *)

(* ================================================================= *)
(** ** Tiers as a function of the rank *)

Lemma _tier_label_in_ALL_TIERS r m : In (_tier_label r m) ALL_TIERS.
Proof.
  unfold _tier_label, ALL_TIERS.
  repeat match goal with
         | |- context [if ?b then _ else _] => destruct b
         end; simpl; auto.
Qed.

Lemma _tier_label_antitone r r' m :
  0 < m -> r <= r' ->
  dict_get TIER_SCORES (_tier_label r' m) 0 <= dict_get TIER_SCORES (_tier_label r m) 0.
Proof.
  intros Hm Hr. rewrite !_tier_label_quartiles by exact Hm.
  destruct (Z.leb_spec (4 * r) m); destruct (Z.leb_spec (4 * r') m); try lia;
    destruct (Z.leb_spec (2 * r) m); destruct (Z.leb_spec (2 * r') m); try lia;
    destruct (Z.leb_spec (4 * r) (3 * m)); destruct (Z.leb_spec (4 * r') (3 * m));
    try lia; vm_compute; congruence.
Qed.

(** X1. For a rank [r] between 1 and the largest rank [m], with [m]
    below 2^52 so that the quotient [r / m] and its comparisons with
    0.25, 0.50 and 0.75 come out in binary64 as they do exactly, the tier
    is decided by integer comparisons: Top when [4 r <= m], Best when
    [m < 4 r] and [2 r <= m], Next-Best when [m < 2 r] and [4 r <= 3 m],
    Rest when [3 m < 4 r]. *)
Theorem _tier_label_integer_boundaries :
  forall r m, 1 <= r <= m -> m < 2 ^ 52 ->
    (_tier_label r m = "Top" <-> 4 * r <= m) /\
    (_tier_label r m = "Best" <-> m < 4 * r /\ 2 * r <= m) /\
    (_tier_label r m = "Next-Best" <-> m < 2 * r /\ 4 * r <= 3 * m) /\
    (_tier_label r m = "Rest" <-> 3 * m < 4 * r).
Proof.
  intros r m Hr _. rewrite _tier_label_quartiles by lia.
  destruct (Z.leb_spec (4 * r) m);
    [|destruct (Z.leb_spec (2 * r) m);
      [|destruct (Z.leb_spec (4 * r) (3 * m))]];
    repeat split; intros; try lia; try discriminate; try reflexivity.
Qed.

Lemma _tier_label_integer_boundaries_witness :
  1 <= 2 <= 3 /\ 3 < 2 ^ 52 /\
  (_tier_label 2 3 = "Next-Best" <-> 3 < 2 * 2 /\ 4 * 2 <= 3 * 3).
Proof.
  assert (H : 1 <= 2 <= 3) by lia.
  assert (B : 3 < 2 ^ 52) by reflexivity.
  split; [exact H|]. split; [exact B|].
  exact (proj1 (proj2 (proj2 (_tier_label_integer_boundaries 2 3 H B)))).
Defined.

Lemma dense_rank_antitone s u v :
  In u s -> In v s -> (u <= v)%Qc -> dense_rank_of s v <= dense_rank_of s u.
Proof.
  intros Hu Hv Hle. destruct (Qcle_lt_or_eq _ _ Hle) as [Hlt| ->]; [|lia].
  pose proof (dense_rank_strict s u v Hu Hlt). lia.
Qed.

(** X2. In every rank table each tier is one of the four tier names, entities
    with the same best cutoff have the same tier, and an entity with a
    higher best cutoff never has a tier of lower score. *)
Theorem rank_table_tiers_follow_cutoffs :
  forall (group_col : CutoffRecord -> Z) (cutoff : list CutoffRecord),
    let out := _rank_and_tier cutoff group_col in
    (forall e, In e out -> In (tier e) ALL_TIERS) /\
    (forall e e', In e out -> In e' out ->
       max_cutoff e = max_cutoff e' -> tier e = tier e') /\
    (forall e e', In e out -> In e' out ->
       (max_cutoff e' <= max_cutoff e)%Qc ->
       dict_get TIER_SCORES (tier e') 0 <= dict_get TIER_SCORES (tier e) 0).
Proof.
  intros g cutoff out. split; [|split].
  - intros e He. destruct (in__rank_and_tier g cutoff e He) as (_ & _ & _ & _ & ->).
    apply _tier_label_in_ALL_TIERS.
  - intros e e' He He' E.
    destruct (in__rank_and_tier g cutoff e He) as (_ & _ & _ & Hr & Ht).
    destruct (in__rank_and_tier g cutoff e' He') as (_ & _ & _ & Hr' & Ht').
    rewrite Ht, Ht', Hr, Hr', E. reflexivity.
  - intros e e' He He' Hle.
    destruct (in__rank_and_tier g cutoff e He) as (_ & _ & Hin & Hr & Ht).
    destruct (in__rank_and_tier g cutoff e' He') as (_ & _ & Hin' & Hr' & Ht').
    rewrite Ht, Ht'. apply _tier_label_antitone.
    + pose proof (rank_bounds g cutoff e He). lia.
    + rewrite Hr, Hr'. apply dense_rank_antitone; assumption.
Qed.

(* ================================================================= *)
(** ** The shape of a rank table *)

Lemma Zleb_total a b : (a <=? b) = true \/ (b <=? a) = true.
Proof. rewrite !Z.leb_le. lia. Qed.

Lemma Zleb_trans a b c : (a <=? b) = true -> (b <=? c) = true -> (a <=? c) = true.
Proof. rewrite !Z.leb_le. lia. Qed.

Lemma group_keys_sorted g cutoff : StronglySorted Z.lt (group_keys g cutoff).
Proof.
  pose proof (NoDup_group_keys g cutoff) as Hnd.
  pose proof (stable_sort_sorted Z.leb Zleb_total Zleb_trans
                (nodup Z.eq_dec (map g cutoff))) as Hs.
  fold (group_keys g cutoff) in Hs.
  induction Hs as [|x l Hs IH Hx]; constructor.
  - apply IH. inversion Hnd; assumption.
  - inversion Hnd as [|? ? Hnot _]; subst.
    rewrite Forall_forall in *. intros y Hy.
    specialize (Hx y Hy). apply Z.leb_le in Hx.
    assert (x <> y) by (intros ->; contradiction). lia.
Qed.

(** X3. A rank table has one row for each distinct key of the records, in
    ascending key order; it is empty exactly when there are no records. *)
Theorem rank_table_shape :
  forall (group_col : CutoffRecord -> Z) (cutoff : list CutoffRecord),
    let out := _rank_and_tier cutoff group_col in
    length out = length (nodup Z.eq_dec (map group_col cutoff)) /\
    StronglySorted Z.lt (map rr_key out) /\
    (forall k, In k (map rr_key out) <-> In k (map group_col cutoff)) /\
    (out = [] <-> cutoff = []).
Proof.
  intros g cutoff out.
  assert (Hkeys : map rr_key out = group_keys g cutoff)
    by apply _rank_and_tier_keys.
  assert (Hlen : length out = length (nodup Z.eq_dec (map g cutoff))).
  { rewrite <- (length_map rr_key), Hkeys.
    apply Permutation_length, group_keys_perm. }
  split; [exact Hlen|]. split; [rewrite Hkeys; apply group_keys_sorted|].
  split.
  - intros k. rewrite Hkeys, in_group_keys, in_map_iff.
    split; intros (r & H1 & H2); eauto.
  - split.
    + intros E. rewrite E in Hlen. simpl in Hlen.
      destruct cutoff as [|r c]; [reflexivity|]. exfalso.
      assert (In (g r) (nodup Z.eq_dec (map g (r :: c)))) as Hin
        by (apply nodup_In; simpl; auto).
      destruct (nodup Z.eq_dec (map g (r :: c))); [contradiction|discriminate].
    + intros ->. reflexivity.
Qed.

(* ================================================================= *)
(** ** Rank tables do not depend on the order of the records *)

Lemma sorted_lists_equal (l l' : list Z) :
  StronglySorted Z.lt l -> StronglySorted Z.lt l' ->
  (forall k, In k l <-> In k l') -> l = l'.
Proof.
  intros Hl. revert l'. induction Hl as [|x l Hs IH Hx]; intros l' Hl' Hsame.
  - destruct l' as [|y l']; [reflexivity|].
    exfalso. apply (proj2 (Hsame y)). simpl. auto.
  - destruct Hl' as [|y l' Hs' Hy].
    + exfalso. apply (proj1 (Hsame x)). simpl. auto.
    + rewrite Forall_forall in Hx, Hy.
      assert (x = y) as <-.
      { destruct (proj1 (Hsame x) (or_introl eq_refl)) as [E|Hin]; [auto|].
        destruct (proj2 (Hsame y) (or_introl eq_refl)) as [E|Hin']; [auto|].
        specialize (Hx y Hin'). specialize (Hy x Hin). lia. }
      f_equal. apply IH; [exact Hs'|].
      intros k. split; intros Hk.
      * destruct (proj1 (Hsame k) (or_intror Hk)) as [<-|H]; [|exact H].
        specialize (Hx x Hk). lia.
      * destruct (proj2 (Hsame k) (or_intror Hk)) as [<-|H]; [|exact H].
        specialize (Hy x Hk). lia.
Qed.

Lemma group_keys_same_records g cutoff cutoff' :
  (forall r, In r cutoff <-> In r cutoff') ->
  group_keys g cutoff = group_keys g cutoff'.
Proof.
  intros Hsame. apply sorted_lists_equal; try apply group_keys_sorted.
  intros k. rewrite !in_group_keys.
  split; intros (r & Hr & E); exists r; (split; [apply Hsame; exact Hr|exact E]).
Qed.

Lemma best_cutoff_same_records g cutoff cutoff' k :
  (forall r, In r cutoff <-> In r cutoff') ->
  In k (group_keys g cutoff) ->
  best_cutoff g cutoff k = best_cutoff g cutoff' k.
Proof.
  intros Hsame Hk.
  assert (Hk' : In k (group_keys g cutoff'))
    by (rewrite <- (group_keys_same_records g cutoff cutoff' Hsame); exact Hk).
  destruct (best_cutoff_spec g cutoff k Hk) as ((r & Hr & Er & E) & Hmax).
  destruct (best_cutoff_spec g cutoff' k Hk') as ((r' & Hr' & Er' & E') & Hmax').
  apply Qcle_antisym.
  - rewrite <- E. apply Hmax'; [apply Hsame; exact Hr|exact Er].
  - rewrite <- E'. apply Hmax; [apply Hsame; exact Hr'|exact Er'].
Qed.

Lemma _rank_and_tier_same_records g cutoff cutoff' :
  (forall r, In r cutoff <-> In r cutoff') ->
  _rank_and_tier cutoff g = _rank_and_tier cutoff' g.
Proof.
  intros Hsame.
  assert (E : groupby_max g cutoff = groupby_max g cutoff').
  { rewrite !groupby_max_rows, <- (group_keys_same_records g cutoff cutoff' Hsame).
    apply map_ext_in. intros k Hk. f_equal.
    apply best_cutoff_same_records; assumption. }
  unfold _rank_and_tier. rewrite E. reflexivity.
Qed.

(** X4. Two sets of cutoff records with the same members, in whatever order
    and however often repeated, give the same four rank tables. *)
Theorem ranks_do_not_depend_on_record_order :
  forall cutoff cutoff' : list CutoffRecord,
    (forall r, In r cutoff <-> In r cutoff') ->
    compute_ranks_and_tiers cutoff = compute_ranks_and_tiers cutoff'.
Proof.
  intros cutoff cutoff' Hsame. unfold compute_ranks_and_tiers.
  rewrite (_rank_and_tier_same_records District_ID cutoff cutoff' Hsame).
  rewrite (_rank_and_tier_same_records Department_ID cutoff cutoff' Hsame).
  rewrite (_rank_and_tier_same_records Branch_Code cutoff cutoff' Hsame).
  rewrite (_rank_and_tier_same_records College_code cutoff cutoff' Hsame).
  reflexivity.
Qed.

Lemma ranks_do_not_depend_on_record_order_witness :
  compute_ranks_and_tiers ex_four = compute_ranks_and_tiers (rev ex_four ++ ex_four).
Proof.
  apply (ranks_do_not_depend_on_record_order ex_four (rev ex_four ++ ex_four)).
  intros r. simpl. tauto.
Defined.

(* ================================================================= *)
(** ** Left merges, whatever the tables *)

Lemma in_merge_left {L R L'} (key_l : L -> Z) (key_r : R -> Z)
  (add : L -> option R -> L') left right m :
  In m (merge_left key_l key_r add left right) <->
  exists l, In l left /\
    (((forall r, In r right -> key_r r <> key_l l) /\ m = add l None) \/
     (exists r, In r right /\ key_r r = key_l l /\ m = add l (Some r))).
Proof.
  unfold merge_left. rewrite in_flat_map. split.
  - intros (l & Hl & Hm). exists l. split; [exact Hl|].
    destruct (filter (fun r => key_r r =? key_l l) right) as [|r0 rs] eqn:E.
    + left. destruct Hm as [<-|[]]. split; [|reflexivity].
      intros r Hr Hk.
      assert (In r (filter (fun r => key_r r =? key_l l) right)) as Hin
        by (apply filter_In; split; [exact Hr|apply Z.eqb_eq; exact Hk]).
      rewrite E in Hin. contradiction.
    + right. apply in_map_iff in Hm. destruct Hm as (r & <- & Hr).
      rewrite <- E in Hr. apply filter_In in Hr. destruct Hr as (Hr & Hk).
      apply Z.eqb_eq in Hk. eauto.
  - intros (l & Hl & H). exists l. split; [exact Hl|].
    destruct H as [(Hno & ->)|(r & Hr & Hk & ->)].
    + destruct (filter (fun r => key_r r =? key_l l) right) as [|r0 rs] eqn:E;
        [simpl; auto|].
      exfalso. assert (In r0 (filter (fun r => key_r r =? key_l l) right)) as Hin
        by (rewrite E; simpl; auto).
      apply filter_In in Hin. destruct Hin as (Hr0 & Hk). apply Z.eqb_eq in Hk.
      exact (Hno r0 Hr0 Hk).
    + assert (In r (filter (fun r => key_r r =? key_l l) right)) as Hin
        by (apply filter_In; split; [exact Hr|apply Z.eqb_eq; exact Hk]).
      destruct (filter (fun r => key_r r =? key_l l) right) as [|r0 rs];
        [contradiction|].
      apply (in_map (fun r => add l (Some r))). exact Hin.
Qed.

Lemma merge_left_length {L R L'} (key_l : L -> Z) (key_r : R -> Z)
  (add : L -> option R -> L') left right :
  (length left <= length (merge_left key_l key_r add left right))%nat.
Proof.
  unfold merge_left. induction left as [|l left IH]; [simpl; lia|].
  cbn [flat_map length]. rewrite length_app.
  destruct (filter (fun r => key_r r =? key_l l) right) as [|r0 rs];
    [|rewrite length_map]; cbn [length]; lia.
Qed.

Lemma merge_left_preserves {L R} (P : L -> Prop) (key_l : L -> Z) (key_r : R -> Z)
  (add : L -> option R -> L) left right :
  (forall l x, P l -> P (add l x)) ->
  (forall l, In l left -> P l) ->
  forall m, In m (merge_left key_l key_r add left right) -> P m.
Proof.
  intros Hadd Hleft m Hm. apply in_merge_left in Hm.
  destruct Hm as (l & Hl & [(_ & ->)|(r & _ & _ & ->)]); apply Hadd, Hleft, Hl.
Qed.

Lemma merge_left_matched {L R L'} (key_l : L -> Z) (key_r : R -> Z)
  (add : L -> option R -> L') left right :
  (forall l, In l left -> In (key_l l) (map key_r right)) ->
  forall m, In m (merge_left key_l key_r add left right) ->
    exists l r, In l left /\ In r right /\ key_r r = key_l l /\ m = add l (Some r).
Proof.
  intros Hkeys m Hm. apply in_merge_left in Hm.
  destruct Hm as (l & Hl & [(Hno & _)|(r & Hr & Hk & ->)]).
  - exfalso. specialize (Hkeys l Hl). apply in_map_iff in Hkeys.
    destruct Hkeys as (r & Hk & Hr). exact (Hno r Hr Hk).
  - eauto 6.
Qed.

Lemma carries_refl A : carries A A.
Proof. unfold carries. split; [|split]; eauto. Qed.

Lemma carries_trans A B C : carries A B -> carries B C -> carries A C.
Proof.
  intros (H1 & H2 & H3) (K1 & K2 & K3). split; [|split].
  - intros m Hm. destruct (K1 m Hm) as (b & Hb & E).
    destruct (H1 b Hb) as (a & Ha & E'). exists a. split; [exact Ha|congruence].
  - intros a Ha. destruct (H2 a Ha) as (b & Hb & E).
    destruct (K2 b Hb) as (m & Hm & E'). exists m. split; [exact Hm|congruence].
  - lia.
Qed.

Lemma merge_left_carries {R} (key_l : MasterRow -> Z) (key_r : R -> Z)
  (add : MasterRow -> option R -> MasterRow) left right :
  (forall l x, cutoff_of (add l x) = cutoff_of l) ->
  carries left (merge_left key_l key_r add left right).
Proof.
  intros Hadd. split; [|split].
  - intros m Hm. apply in_merge_left in Hm.
    destruct Hm as (l & Hl & [(_ & ->)|(r & _ & _ & ->)]);
      exists l; (split; [exact Hl|apply Hadd]).
  - intros l Hl.
    destruct (filter (fun r => key_r r =? key_l l) right) as [|r0 rs] eqn:E.
    + exists (add l None). split; [|apply Hadd].
      unfold merge_left. apply in_flat_map. exists l. rewrite E. simpl. auto.
    + exists (add l (Some r0)). split; [|apply Hadd].
      unfold merge_left. apply in_flat_map. exists l. rewrite E. simpl. auto.
  - apply merge_left_length.
Qed.

Lemma build_master_table_carries cutoff districts colleges branches ranks :
  carries (map bare cutoff)
    (build_master_table cutoff districts colleges branches ranks).
Proof.
  unfold build_master_table.
  repeat (eapply carries_trans; [|apply merge_left_carries; reflexivity]).
  apply carries_refl.
Qed.

(** X5. Whatever the reference and rank tables hold (several rows per key, or
    none), the left merges neither drop nor invent a cutoff record: every
    master row carries one of the input records, every input record is
    carried by at least one master row, and the master table is at least
    as long as the cutoff table. *)
Theorem master_table_keeps_every_record :
  forall cutoff districts colleges branches ranks,
    let master := build_master_table cutoff districts colleges branches ranks in
    (forall m, In m master -> In (cutoff_of m) cutoff) /\
    (forall c, In c cutoff -> exists m, In m master /\ cutoff_of m = c) /\
    (length cutoff <= length master)%nat.
Proof.
  intros cutoff districts colleges branches ranks master.
  destruct (build_master_table_carries cutoff districts colleges branches ranks)
    as (H1 & H2 & H3).
  fold master in H1, H2, H3. split; [|split].
  - intros m Hm. destruct (H1 m Hm) as (l & Hl & ->).
    apply in_map_iff in Hl. destruct Hl as (c & <- & Hc). exact Hc.
  - intros c Hc. destruct (H2 (bare c) (in_map bare _ _ Hc)) as (m & Hm & E).
    exists m. split; [exact Hm|exact E].
  - rewrite length_map in H3. exact H3.
Qed.

(** A college code listed twice doubles the rows of its records. *)
Example duplicate_key_multiplies_rows :
  length (load_data ex_data) = 8%nat /\ length (data_cutoff ex_data) = 4%nat.
Proof. split; reflexivity. Qed.

(* ================================================================= *)
(** ** The table the page loads *)

Lemma rank_table_has_key g cutoff c :
  In c cutoff -> In (g c) (map rr_key (_rank_and_tier cutoff g)).
Proof.
  intros Hc. rewrite _rank_and_tier_keys. apply in_group_keys. eauto.
Qed.

Lemma ranked_by_intro g cutoff c r :
  In c cutoff -> In r (_rank_and_tier cutoff g) -> rr_key r = g c ->
  ranked_by g cutoff c (Some r).
Proof.
  intros Hc Hr Hk. exists r. repeat split; try assumption.
  destruct (in__rank_and_tier g cutoff r Hr) as (Hkey & -> & _).
  apply (best_cutoff_spec g cutoff (rr_key r) Hkey); auto.
Qed.

Lemma load_data_rows_ranked data m :
  In m (load_data data) ->
  let cutoff := data_cutoff data in
  In (cutoff_of m) cutoff /\
  ranked_by District_ID cutoff (cutoff_of m) (district_rt m) /\
  ranked_by Department_ID cutoff (cutoff_of m) (department_rt m) /\
  ranked_by Branch_Code cutoff (cutoff_of m) (branch_rt m) /\
  ranked_by College_code cutoff (cutoff_of m) (college_rt m).
Proof.
  unfold load_data, build_master_table. cbv zeta.
  set (cutoff := data_cutoff data).
  set (m0 := map bare cutoff).
  set (m1 := merge_left _ dr_District_ID with_district m0 _).
  set (m2 := merge_left _ cr_College_code with_college m1 _).
  set (m3 := merge_left _ br_Branch_Code with_branch m2 _).
  set (m4 := merge_left _ rr_key with_district_rt m3 _).
  set (m5 := merge_left _ rr_key with_department_rt m4 _).
  set (m6 := merge_left _ rr_key with_branch_rt m5 _).
  intros Hm.
  set (P0 := fun l : MasterRow => In (cutoff_of l) cutoff).
  set (P4 := fun l : MasterRow =>
               P0 l /\ ranked_by District_ID cutoff (cutoff_of l) (district_rt l)).
  set (P5 := fun l : MasterRow =>
               P4 l /\ ranked_by Department_ID cutoff (cutoff_of l) (department_rt l)).
  set (P6 := fun l : MasterRow =>
               P5 l /\ ranked_by Branch_Code cutoff (cutoff_of l) (branch_rt l)).
  assert (H0 : forall l, In l m0 -> P0 l).
  { intros l Hl. apply in_map_iff in Hl. destruct Hl as (c & <- & Hc). exact Hc. }
  assert (H1 : forall l, In l m1 -> P0 l)
    by (apply merge_left_preserves; [intros l x H; exact H|exact H0]).
  assert (H2 : forall l, In l m2 -> P0 l)
    by (apply merge_left_preserves; [intros l x H; exact H|exact H1]).
  assert (H3 : forall l, In l m3 -> P0 l)
    by (apply merge_left_preserves; [intros l x H; exact H|exact H2]).
  assert (H4 : forall l, In l m4 -> P4 l).
  { intros l Hl.
    apply (merge_left_matched _ rr_key with_district_rt m3) in Hl.
    - destruct Hl as (l3 & r & Hl3 & Hr & Hk & ->). split.
      + apply (H3 l3 Hl3).
      + apply ranked_by_intro; [apply (H3 l3 Hl3)|exact Hr|exact Hk].
    - intros l3 Hl3.
      apply (rank_table_has_key District_ID cutoff _ (H3 l3 Hl3)). }
  assert (H5 : forall l, In l m5 -> P5 l).
  { intros l Hl.
    apply (merge_left_matched _ rr_key with_department_rt m4) in Hl.
    - destruct Hl as (l4 & r & Hl4 & Hr & Hk & ->).
      destruct (H4 l4 Hl4) as (Hc & Hd). split; [split; assumption|].
      apply ranked_by_intro; [exact Hc|exact Hr|exact Hk].
    - intros l4 Hl4.
      apply (rank_table_has_key Department_ID cutoff _ (proj1 (H4 l4 Hl4))). }
  assert (H6 : forall l, In l m6 -> P6 l).
  { intros l Hl.
    apply (merge_left_matched _ rr_key with_branch_rt m5) in Hl.
    - destruct Hl as (l5 & r & Hl5 & Hr & Hk & ->).
      destruct (H5 l5 Hl5) as ((Hc & Hd) & Hdep).
      split; [split; [split|]; assumption|].
      apply ranked_by_intro; [exact Hc|exact Hr|exact Hk].
    - intros l5 Hl5.
      apply (rank_table_has_key Branch_Code cutoff _ (proj1 (proj1 (H5 l5 Hl5)))). }
  apply (merge_left_matched _ rr_key with_college_rt m6) in Hm.
  - destruct Hm as (l6 & r & Hl6 & Hr & Hk & ->).
    destruct (H6 l6 Hl6) as (((Hc & Hd) & Hdep) & Hb).
    repeat split; try assumption.
    apply ranked_by_intro; [exact Hc|exact Hr|exact Hk].
  - intros l6 Hl6.
    apply (rank_table_has_key College_code cutoff _
             (proj1 (proj1 (proj1 (H6 l6 Hl6))))).
Qed.

(** X6. In the table the page loads, whatever the reference tables hold,
    every row carries one of the cutoff records and has, in each of the
    four categories, the rank-table row of its own entity, whose best
    cutoff is at least the row's cutoff: no rank or tier cell is empty. *)
Theorem loaded_rows_have_their_ranks :
  forall data : Data,
    Forall
      (fun m =>
         In (cutoff_of m) (data_cutoff data) /\
         ranked_by District_ID (data_cutoff data) (cutoff_of m) (district_rt m) /\
         ranked_by Department_ID (data_cutoff data) (cutoff_of m) (department_rt m) /\
         ranked_by Branch_Code (data_cutoff data) (cutoff_of m) (branch_rt m) /\
         ranked_by College_code (data_cutoff data) (cutoff_of m) (college_rt m) /\
         fully_ranked m)
      (load_data data).
Proof.
  intros data. apply Forall_forall. intros m Hm.
  destruct (load_data_rows_ranked data m Hm) as (Hc & Hd & Hdep & Hb & Hcol).
  repeat split; try assumption.
  - destruct Hd as (r & -> & _). discriminate.
  - destruct Hdep as (r & -> & _). discriminate.
  - destruct Hb as (r & -> & _). discriminate.
  - destruct Hcol as (r & -> & _). discriminate.
Qed.

(** X7. When the three reference tables have at most one row per key, the
    table the page loads has exactly the cutoff records as its rows, in
    their order: the rank tables computed from the same records never
    duplicate a row. *)
Theorem loaded_table_one_row_per_record :
  forall data : Data,
    unique_reference_keys data ->
    map cutoff_of (load_data data) = data_cutoff data /\
    length (load_data data) = length (data_cutoff data).
Proof.
  intros data (H1 & H2 & H3).
  destruct (compute_ranks_and_tiers_unique_keys (data_cutoff data))
    as (H4 & H5 & H6 & H7).
  unfold load_data. cbv zeta.
  rewrite build_master_table_rows by (repeat split; assumption).
  rewrite map_map, length_map. simpl. split; [apply map_id|reflexivity].
Qed.

Lemma loaded_table_one_row_per_record_witness :
  unique_reference_keys ex_data_unique /\
  map cutoff_of (load_data ex_data_unique) = data_cutoff ex_data_unique.
Proof.
  assert (H : unique_reference_keys ex_data_unique).
  { repeat split; simpl; repeat constructor; simpl; lia. }
  split; [exact H|].
  exact (proj1 (loaded_table_one_row_per_record ex_data_unique H)).
Defined.

(* ================================================================= *)
(** ** The final score *)

Lemma weighted_score_none_r mx w : weighted_score mx None w = None.
Proof. destruct mx; reflexivity. Qed.

Lemma cell2_none_r {A B C} (f : A -> B -> C) a : cell2 f a None = None.
Proof. destruct a; reflexivity. Qed.

Lemma final_of_none_iff ws df r :
  In r df -> (final_of ws df r = None <-> ~ fully_ranked r).
Proof.
  intros Hin. split.
  - intros Hn Hf. destruct (final_of_fully_ranked ws df r Hin Hf) as [q Hq].
    congruence.
  - intros Hnf. destruct ws as [[[w1 w2] w3] w4].
    unfold final_of, district_rank, department_rank, branch_rank, college_rank.
    destruct (college_rt r) as [c|] eqn:Ec;
      [|simpl; rewrite weighted_score_none_r, cell2_none_r; reflexivity].
    destruct (branch_rt r) as [b|] eqn:Eb;
      [|simpl; rewrite weighted_score_none_r, cell2_none_r; reflexivity].
    destruct (department_rt r) as [dep|] eqn:Edep;
      [|simpl; rewrite weighted_score_none_r, cell2_none_r; reflexivity].
    destruct (district_rt r) as [d|] eqn:Ed;
      [|simpl; rewrite weighted_score_none_r; reflexivity].
    exfalso. apply Hnf. unfold fully_ranked. rewrite Ed, Edep, Eb, Ec.
    repeat split; discriminate.
Qed.

(** X9. With the four weights in the sliders' range 0 to 100, a row has
    an empty [final_score] exactly when the rank of at least one of the
    four categories is empty: a weight of zero does not hide a missing
    rank, and no row with all four ranks is left without a score. *)
Theorem final_score_empty_iff_a_rank_is_missing :
  forall df ct bt dt (d_w dep_w b_w c_w : Qc),
    (0 <= d_w <= Num.of_Z 100)%Qc -> (0 <= dep_w <= Num.of_Z 100)%Qc ->
    (0 <= b_w <= Num.of_Z 100)%Qc -> (0 <= c_w <= Num.of_Z 100)%Qc ->
    exists out,
      apply_tier_filtering_and_scoring df ct bt dt d_w dep_w b_w c_w = Some out /\
      forall o, In o out ->
        (final_score (scored o) = None <-> ~ fully_ranked (row (scored o))).
Proof.
  intros df ct bt dt d_w dep_w b_w c_w _ _ _ _.
  destruct (pipeline_rows df ct bt dt d_w dep_w b_w c_w) as (ws & _ & Hout).
  eexists. split; [exact Hout|].
  intros o Ho. apply in_pipeline_output in Ho. destruct Ho as (r & Hr & ->).
  simpl. apply final_of_none_iff. exact Hr.
Qed.

Lemma final_score_empty_iff_a_rank_is_missing_witness :
  exists out,
    apply_tier_filtering_and_scoring ex_table ALL_TIERS ALL_TIERS ALL_TIERS
      w25 w25 w25 w25 = Some out /\
    forall o, In o out ->
      (final_score (scored o) = None <-> ~ fully_ranked (row (scored o))).
Proof.
  apply (final_score_empty_iff_a_rank_is_missing ex_table ALL_TIERS ALL_TIERS
           ALL_TIERS w25 w25 w25 w25);
    split; vm_compute; discriminate.
Defined.

Lemma Num_eqb_neq x y : Num.eqb x y = false <-> x <> y.
Proof.
  rewrite <- Num_eqb_eq. destruct (Num.eqb x y); split; congruence.
Qed.

Lemma Qcinv_nonneg (x : Qc) : (0 <= x)%Qc -> (0 <= / x)%Qc.
Proof.
  unfold Qcle, Qcinv. intros H.
  change (0 <= Qred (/ x))%Q. rewrite (Qred_correct (/ x)).
  apply Qinv_le_0_compat. exact H.
Qed.

Lemma Qcdiv_nonneg (a b : Qc) : (0 <= a)%Qc -> (0 <= b)%Qc -> (0 <= a / b)%Qc.
Proof.
  intros Ha Hb. unfold Qcdiv. replace 0%Qc with (0 * / b)%Qc by ring.
  apply Qcmult_le_compat_r; [exact Ha|apply Qcinv_nonneg; exact Hb].
Qed.

Lemma quarter_nonneg : (0 <= Num.lit 25 100)%Qc.
Proof. vm_compute. discriminate. Qed.

Lemma normalize_weights_nonneg d dep b c w1 w2 w3 w4 :
  (0 <= d)%Qc -> (0 <= dep)%Qc -> (0 <= b)%Qc -> (0 <= c)%Qc ->
  normalize_weights d dep b c = Some (w1, w2, w3, w4) ->
  (0 <= w1)%Qc /\ (0 <= w2)%Qc /\ (0 <= w3)%Qc /\ (0 <= w4)%Qc /\
  (w1 + w2 + w3 + w4 = 1)%Qc.
Proof.
  intros Hd Hdep Hb Hc. unfold normalize_weights, pydiv.
  destruct (Num.eqb (d + dep + b + c)%Qc 0%Qc) eqn:E.
  - intros H. injection H as <- <- <- <-.
    repeat split; try exact quarter_nonneg. exact quarter_sum.
  - apply Num_eqb_neq in E. cbn [bind]. intros H. injection H as <- <- <- <-.
    assert (Ht : (0 <= d + dep + b + c)%Qc) by auto using Qc_nonneg_add.
    repeat split; try (apply Qcdiv_nonneg; assumption).
    field. exact E.
Qed.

Lemma of_Z_ge_one s : 1 <= s -> (1 <= Num.of_Z s)%Qc.
Proof.
  intros H. unfold Qcle, Num.of_Z.
  change (1 <= Qred (inject_Z s))%Q. rewrite (Qred_correct (inject_Z s)).
  unfold Qle. simpl. lia.
Qed.

Lemma weighted_ge s (w : Qc) : 1 <= s -> (0 <= w)%Qc -> (w <= Num.of_Z s * w)%Qc.
Proof.
  intros Hs Hw. replace w with (1 * w)%Qc at 1 by ring.
  apply Qcmult_le_compat_r; [apply of_Z_ge_one; exact Hs|exact Hw].
Qed.

Lemma col_max_ge s v : In (Some v) s -> exists m, col_max s = Some m /\ v <= m.
Proof.
  induction s as [|[x|] s IH]; simpl; intros H.
  - contradiction.
  - destruct H as [H|H].
    + injection H as ->. destruct (col_max s); eexists; split; try reflexivity; lia.
    + destruct (IH H) as (m & -> & Hm). eexists. split; [reflexivity|lia].
  - destruct H as [H|H]; [discriminate|auto].
Qed.

Lemma weighted_score_ge (f : MasterRow -> option RankRow) df r (w : Qc) :
  In r df -> f r <> None -> (0 <= w)%Qc ->
  exists q,
    weighted_score (col_max (map (fun m => option_map rank (f m)) df))
      (option_map rank (f r)) w = Some q /\ (w <= q)%Qc.
Proof.
  intros Hin Hr Hw. destruct (f r) as [rr|] eqn:E; [|congruence].
  destruct (col_max_ge (map (fun m => option_map rank (f m)) df) (rank rr))
    as (m & Hm & Hle).
  { apply in_map_iff. exists r. rewrite E. auto. }
  rewrite Hm. unfold weighted_score, cell2, option_map.
  eexists. split; [reflexivity|]. apply weighted_ge; [lia|exact Hw].
Qed.

Lemma rint_ge_floor q : Qfloor q <= rint q.
Proof.
  unfold rint. destruct (Qcompare _ _); [destruct (Z.even _)| |]; lia.
Qed.

Lemma round2_ge_one (x : Qc) : (1 <= x)%Qc -> (1 <= round2 x)%Qc.
Proof.
  unfold Qcle, round2. intros H. change (1 <= x)%Q in H.
  change (1 <= Qred (rint (x * 100) # 100))%Q.
  rewrite (Qred_correct (rint (x * 100) # 100)).
  assert (H100 : 100 <= rint (x * 100)).
  { apply Z.le_trans with (Qfloor (x * 100)); [|apply rint_ge_floor].
    rewrite <- (Qfloor_Z 100). apply Qfloor_resp_le.
    apply Qle_trans with (1 * 100)%Q; [unfold Qle; simpl; lia|].
    apply Qmult_le_compat_r; [exact H|unfold Qle; simpl; lia]. }
  unfold Qle. simpl. lia.
Qed.

Lemma final_of_ge_one w1 w2 w3 w4 df r :
  (0 <= w1)%Qc -> (0 <= w2)%Qc -> (0 <= w3)%Qc -> (0 <= w4)%Qc ->
  (w1 + w2 + w3 + w4 = 1)%Qc ->
  In r df -> fully_ranked r ->
  exists q, final_of (w1, w2, w3, w4) df r = Some q /\ (1 <= q)%Qc.
Proof.
  intros H1 H2 H3 H4 Hsum Hin (F1 & F2 & F3 & F4).
  unfold final_of, district_rank, department_rank, branch_rank, college_rank.
  destruct (weighted_score_ge district_rt df r w1 Hin F1 H1) as (q1 & -> & L1).
  destruct (weighted_score_ge department_rt df r w2 Hin F2 H2) as (q2 & -> & L2).
  destruct (weighted_score_ge branch_rt df r w3 Hin F3 H3) as (q3 & -> & L3).
  destruct (weighted_score_ge college_rt df r w4 Hin F4 H4) as (q4 & -> & L4).
  cbn [cell2 option_map]. eexists. split; [reflexivity|].
  apply round2_ge_one. rewrite <- Hsum.
  repeat apply Qcplus_le_compat; assumption.
Qed.

(** X10. With the four weights in the sliders' range 0 to 100, every row
    that has a rank in all four categories gets a [final_score] of at
    least 1: each rank score [max + 1 - rank] is at least 1 because the
    column maximum is taken over the same table. *)
Theorem final_score_at_least_one :
  forall df ct bt dt (d_w dep_w b_w c_w : Qc),
    (0 <= d_w <= Num.of_Z 100)%Qc -> (0 <= dep_w <= Num.of_Z 100)%Qc ->
    (0 <= b_w <= Num.of_Z 100)%Qc -> (0 <= c_w <= Num.of_Z 100)%Qc ->
    exists out,
      apply_tier_filtering_and_scoring df ct bt dt d_w dep_w b_w c_w = Some out /\
      forall o, In o out -> fully_ranked (row (scored o)) ->
        exists q, final_score (scored o) = Some q /\ (1 <= q)%Qc.
Proof.
  intros df ct bt dt d_w dep_w b_w c_w [Hd _] [Hdep _] [Hb _] [Hc _].
  destruct (pipeline_rows df ct bt dt d_w dep_w b_w c_w) as (ws & Hws & Hout).
  eexists. split; [exact Hout|].
  intros o Ho Hf. apply in_pipeline_output in Ho. destruct Ho as (r & Hr & E).
  rewrite E in *. simpl in *. destruct ws as [[[w1 w2] w3] w4].
  destruct (normalize_weights_nonneg _ _ _ _ _ _ _ _ Hd Hdep Hb Hc Hws)
    as (N1 & N2 & N3 & N4 & Hsum).
  apply final_of_ge_one; assumption.
Qed.

Lemma final_score_at_least_one_witness :
  exists out,
    apply_tier_filtering_and_scoring ex_table ALL_TIERS ALL_TIERS ALL_TIERS
      w25 w25 w25 w25 = Some out /\
    forall o, In o out -> fully_ranked (row (scored o)) ->
      exists q, final_score (scored o) = Some q /\ (1 <= q)%Qc.
Proof.
  apply (final_score_at_least_one ex_table ALL_TIERS ALL_TIERS ALL_TIERS
           w25 w25 w25 w25);
    split; vm_compute; discriminate.
Defined.

(* ================================================================= *)
(** ** Tier selections *)

Lemma tier_score_mono t sel sel' :
  incl sel sel' -> tier_score t sel <= tier_score t sel'.
Proof.
  intros Hincl. destruct t as [s|]; simpl; [|lia].
  destruct (str_in s sel) eqn:E.
  - apply str_in_In in E. apply Hincl, str_in_In in E. rewrite E. lia.
  - destruct (str_in s sel'); [apply dict_get_tier_range|lia].
Qed.

(** X12. Selecting more tiers never lowers a score: when each selection is
    contained in a larger one, every row's three tier scores and its
    [sum_of_tiers] under the larger selections are at least those under
    the smaller ones. *)
Theorem larger_selection_never_lowers_scores :
  forall df ct bt dt ct' bt' dt' d_w dep_w b_w c_w,
    incl ct ct' -> incl bt bt' -> incl dt dt' ->
    exists out out',
      apply_tier_filtering_and_scoring df ct bt dt d_w dep_w b_w c_w = Some out /\
      apply_tier_filtering_and_scoring df ct' bt' dt' d_w dep_w b_w c_w = Some out' /\
      forall o o', In o out -> In o' out' ->
        row (scored o) = row (scored o') ->
        college_tier_score (scored o) <= college_tier_score (scored o') /\
        branch_tier_score (scored o) <= branch_tier_score (scored o') /\
        district_tier_score (scored o) <= district_tier_score (scored o') /\
        sum_of_tiers (scored o) <= sum_of_tiers (scored o').
Proof.
  intros df ct bt dt ct' bt' dt' d_w dep_w b_w c_w Hc Hb Hd.
  destruct (pipeline_rows df ct bt dt d_w dep_w b_w c_w) as (ws & _ & Hout).
  destruct (pipeline_rows df ct' bt' dt' d_w dep_w b_w c_w) as (ws' & _ & Hout').
  do 2 eexists. split; [exact Hout|]. split; [exact Hout'|].
  intros o o' Ho Ho' E.
  apply in_pipeline_output in Ho. destruct Ho as (r & _ & Er).
  apply in_pipeline_output in Ho'. destruct Ho' as (r' & _ & Er').
  rewrite Er, Er' in *. simpl in E. subst r'. unfold score_row. simpl.
  pose proof (tier_score_mono (college_tier r) ct ct' Hc).
  pose proof (tier_score_mono (branch_tier r) bt bt' Hb).
  pose proof (tier_score_mono (district_tier r) dt dt' Hd).
  lia.
Qed.

Lemma larger_selection_never_lowers_scores_witness :
  exists out out',
    apply_tier_filtering_and_scoring ex_table ["Top"] ["Top"] ["Top"; "Best"]
      w25 w25 w25 w25 = Some out /\
    apply_tier_filtering_and_scoring ex_table ALL_TIERS ALL_TIERS ALL_TIERS
      w25 w25 w25 w25 = Some out' /\
    forall o o', In o out -> In o' out' ->
      row (scored o) = row (scored o') ->
      college_tier_score (scored o) <= college_tier_score (scored o') /\
      branch_tier_score (scored o) <= branch_tier_score (scored o') /\
      district_tier_score (scored o) <= district_tier_score (scored o') /\
      sum_of_tiers (scored o) <= sum_of_tiers (scored o').
Proof.
  apply (larger_selection_never_lowers_scores ex_table
           ["Top"] ["Top"] ["Top"; "Best"] ALL_TIERS ALL_TIERS ALL_TIERS
           w25 w25 w25 w25);
    intros t Ht; simpl in *; tauto.
Defined.

(** X13. The columns the pipeline computes for a row are the values that
    [compute_tier_scores_column] and [compute_sum_of_tiers] give for that
    row and the same selections. *)
Theorem pipeline_columns_agree_with_row_helpers :
  forall df ct bt dt d_w dep_w b_w c_w,
  exists out,
    apply_tier_filtering_and_scoring df ct bt dt d_w dep_w b_w c_w = Some out /\
    forall o, In o out ->
      let s := scored o in
      mkTierScores (college_tier_score s) (branch_tier_score s) (district_tier_score s) =
        compute_tier_scores_column (row s) ct bt dt /\
      sum_of_tiers s = compute_sum_of_tiers (row s) ct bt dt.
Proof.
  intros df ct bt dt d_w dep_w b_w c_w.
  destruct (pipeline_rows df ct bt dt d_w dep_w b_w c_w) as (ws & _ & Hout).
  eexists. split; [exact Hout|].
  intros o Ho. apply in_pipeline_output in Ho. destruct Ho as (r & _ & ->).
  split; reflexivity.
Qed.

(* ================================================================= *)
(** ** Rows that tie keep their input order *)

Lemma insert_keeps_ties {A} (cmp : A -> A -> comparison) `{!OrderCmp cmp}
  (a x : A) (l : list A) :
  let p := fun y => match cmp a y with Eq => true | _ => false end in
  filter p (insert (leb_of cmp) x l) = filter p (x :: l).
Proof.
  intros p. induction l as [|y l IH]; [reflexivity|].
  cbn [insert]. unfold leb_of at 1. destruct (cmp x y) eqn:E; try reflexivity.
  cbn [filter]. rewrite IH. cbn [filter].
  destruct (p x) eqn:Px; [|reflexivity].
  destruct (p y) eqn:Py; [|reflexivity].
  exfalso. unfold p in Px, Py.
  destruct (cmp a x) eqn:Eax; try discriminate.
  destruct (cmp a y) eqn:Eay; try discriminate.
  rewrite <- (cmp_eq_l (cmp := cmp) a x y Eax), Eay in E. discriminate.
Qed.

Lemma stable_sort_keeps_ties {A} (cmp : A -> A -> comparison) `{!OrderCmp cmp}
  (a : A) (l : list A) :
  let p := fun y => match cmp a y with Eq => true | _ => false end in
  filter p (stable_sort (leb_of cmp) l) = filter p l.
Proof.
  intros p. induction l as [|x l IH]; [reflexivity|].
  cbn [stable_sort fold_right]. fold (stable_sort (leb_of cmp) l).
  unfold p. rewrite (insert_keeps_ties cmp a x). cbn [filter].
  fold p. rewrite IH. reflexivity.
Qed.

(** X14. The sort is stable: take the input rows with their computed columns,
    in input order; the output holds the same rows, and the rows that tie
    with any given row on all four sort keys come out in their input
    order. *)
Theorem ties_keep_input_order :
  forall df ct bt dt d_w dep_w b_w c_w,
  exists out scored_in,
    apply_tier_filtering_and_scoring df ct bt dt d_w dep_w b_w c_w = Some out /\
    map row scored_in = df /\
    Permutation (map scored out) scored_in /\
    forall a, filter (ties_with a) (map scored out) = filter (ties_with a) scored_in.
Proof.
  intros df ct bt dt d_w dep_w b_w c_w.
  destruct (pipeline_rows df ct bt dt d_w dep_w b_w c_w) as (ws & _ & Hout).
  exists (number_rows (sort_values (map (score_row ct bt dt ws df) df))).
  exists (map (score_row ct bt dt ws df) df).
  split; [exact Hout|]. split; [apply row_score_row|].
  rewrite scored_number_rows. split; [apply sort_values_perm|].
  intros a. apply (stable_sort_keeps_ties sort_key_compare a).
Qed.

(* ================================================================= *)
(** ** The page: scoring the loaded table *)

Lemma or_default_ALL_TIERS sel :
  sel = [] \/ sel = ALL_TIERS -> or_default sel ALL_TIERS = ALL_TIERS.
Proof. intros [->| ->]; reflexivity. Qed.

Lemma tier_score_full_selection c g cutoff x :
  ranked_by g cutoff c x -> 1 <= tier_score (option_map tier x) ALL_TIERS <= 4.
Proof.
  intros (r & -> & Hr & _). cbn [option_map].
  destruct (in__rank_and_tier g cutoff r Hr) as (_ & _ & _ & _ & Ht).
  assert (Hin : In (tier r) ALL_TIERS) by (rewrite Ht; apply _tier_label_in_ALL_TIERS).
  rewrite (tier_score_selected _ _ Hin).
  destruct (tier_scores_known _ Hin) as [[_ E]|[[_ E]|[[_ E]|[_ E]]]]; lia.
Qed.

(** X16. On the table the page loads, whatever the sliders and selections,
    the pipeline returns and no row has an empty [final_score]; and a
    category whose selection is cleared or left at all four tiers gives
    every row a tier score between 1 and 4, so with no tier filter set
    every [sum_of_tiers] is between 3 and 12. *)
Theorem page_scores_of_loaded_table :
  forall (data : Data) ct bt dt (d_w dep_w b_w c_w : Z),
  exists out,
    app_scored (load_data data) ct bt dt d_w dep_w b_w c_w = Some out /\
    (forall o, In o out -> final_score (scored o) <> None) /\
    (ct = [] \/ ct = ALL_TIERS ->
     forall o, In o out -> 1 <= college_tier_score (scored o) <= 4) /\
    (bt = [] \/ bt = ALL_TIERS ->
     forall o, In o out -> 1 <= branch_tier_score (scored o) <= 4) /\
    (dt = [] \/ dt = ALL_TIERS ->
     forall o, In o out -> 1 <= district_tier_score (scored o) <= 4) /\
    ((ct = [] \/ ct = ALL_TIERS) -> (bt = [] \/ bt = ALL_TIERS) ->
     (dt = [] \/ dt = ALL_TIERS) ->
     forall o, In o out -> 3 <= sum_of_tiers (scored o) <= 12).
Proof.
  intros data ct bt dt d_w dep_w b_w c_w. unfold app_scored.
  set (ct' := or_default ct ALL_TIERS). set (bt' := or_default bt ALL_TIERS).
  set (dt' := or_default dt ALL_TIERS).
  destruct (pipeline_rows (load_data data) ct' bt' dt'
              (Num.of_Z d_w) (Num.of_Z dep_w) (Num.of_Z b_w) (Num.of_Z c_w))
    as (ws & _ & Hout).
  eexists. split; [exact Hout|].
  assert (Hrow : forall o,
            In o (number_rows (sort_values
                    (map (score_row ct' bt' dt' ws (load_data data)) (load_data data)))) ->
            exists r, In r (load_data data) /\
                      scored o = score_row ct' bt' dt' ws (load_data data) r)
    by (intros o Ho; apply in_pipeline_output; exact Ho).
  split; [|split; [|split; [|split]]].
  - intros o Ho. destruct (Hrow o Ho) as (r & Hr & ->). simpl.
    destruct (load_data_rows_ranked data r Hr)
      as (_ & (x1 & E1 & _) & (x2 & E2 & _) & (x3 & E3 & _) & (x4 & E4 & _)).
    destruct (final_of_fully_ranked ws (load_data data) r Hr) as [q Hq].
    { unfold fully_ranked. rewrite E1, E2, E3, E4. repeat split; discriminate. }
    congruence.
  - intros Hct o Ho. destruct (Hrow o Ho) as (r & Hr & ->). simpl.
    unfold ct'. rewrite (or_default_ALL_TIERS ct Hct).
    destruct (load_data_rows_ranked data r Hr) as (_ & _ & _ & _ & H4).
    apply (tier_score_full_selection _ _ _ _ H4).
  - intros Hbt o Ho. destruct (Hrow o Ho) as (r & Hr & ->). simpl.
    unfold bt'. rewrite (or_default_ALL_TIERS bt Hbt).
    destruct (load_data_rows_ranked data r Hr) as (_ & _ & _ & H3 & _).
    apply (tier_score_full_selection _ _ _ _ H3).
  - intros Hdt o Ho. destruct (Hrow o Ho) as (r & Hr & ->). simpl.
    unfold dt'. rewrite (or_default_ALL_TIERS dt Hdt).
    destruct (load_data_rows_ranked data r Hr) as (_ & H1 & _).
    apply (tier_score_full_selection _ _ _ _ H1).
  - intros Hct Hbt Hdt o Ho. destruct (Hrow o Ho) as (r & Hr & ->). simpl.
    unfold ct', bt', dt'.
    rewrite (or_default_ALL_TIERS ct Hct), (or_default_ALL_TIERS bt Hbt),
      (or_default_ALL_TIERS dt Hdt).
    destruct (load_data_rows_ranked data r Hr) as (_ & H1 & _ & H3 & H4).
    pose proof (tier_score_full_selection _ _ _ _ H1).
    pose proof (tier_score_full_selection _ _ _ _ H3).
    pose proof (tier_score_full_selection _ _ _ _ H4).
    unfold college_tier, branch_tier, district_tier. lia.
Qed.

(* ================================================================= *)
(** ** The page: row filters *)

Lemma isin_spec cell sel :
  isin cell sel = true <-> exists s, cell = Some s /\ In s sel.
Proof.
  destruct cell as [s|]; simpl.
  - rewrite str_in_In. split.
    + intros H. exists s. auto.
    + intros (s' & E & H). injection E as ->. exact H.
  - split; [discriminate|]. intros (s & E & _). discriminate.
Qed.

Lemma in_keep_selected col sel l o :
  In o (keep_selected col sel l) <-> In o l /\ passes (col o) sel.
Proof.
  unfold keep_selected, passes. destruct sel as [|s0 sel].
  - tauto.
  - rewrite filter_In, isin_spec. split.
    + intros (H1 & H2). auto.
    + intros (H1 & [H2|H2]); [discriminate|auto].
Qed.

Lemma StronglySorted_filter_keeps {A} (R : A -> A -> Prop) (p : A -> bool) l :
  StronglySorted R l -> StronglySorted R (filter p l).
Proof.
  induction 1 as [|x l Hs IH Hx]; simpl; [constructor|].
  destruct (p x); [|exact IH]. constructor; [exact IH|].
  rewrite Forall_forall in *. intros y Hy. apply filter_In in Hy. apply Hx. tauto.
Qed.

Lemma keep_selected_sorted (R : OrderedRow -> OrderedRow -> Prop) col sel l :
  StronglySorted R l -> StronglySorted R (keep_selected col sel l).
Proof.
  intros H. unfold keep_selected. destruct sel; [exact H|].
  apply StronglySorted_filter_keeps. exact H.
Qed.

Lemma range1_increasing s n : StronglySorted Z.lt (map Z.of_nat (seq s n)).
Proof.
  revert s. induction n as [|n IH]; intros s; simpl; constructor; [apply IH|].
  apply Forall_forall. intros z Hz. apply in_map_iff in Hz.
  destruct Hz as (k & <- & Hk). apply in_seq in Hk. lia.
Qed.

Lemma StronglySorted_map_inv {A B} (R : B -> B -> Prop) (f : A -> B) l :
  StronglySorted R (map f l) -> StronglySorted (fun a b => R (f a) (f b)) l.
Proof.
  induction l as [|x l IH]; simpl; intros H; [constructor|].
  inversion H as [|? ? Hs Hx]; subst. constructor; [apply IH; exact Hs|].
  rewrite Forall_forall in *. intros y Hy. apply Hx. apply in_map. exact Hy.
Qed.

Lemma number_rows_increasing l :
  StronglySorted (fun a b => choose_order a < choose_order b) (number_rows l).
Proof.
  apply (StronglySorted_map_inv Z.lt choose_order).
  rewrite choose_order_number_rows. apply range1_increasing.
Qed.

(** X17. The row filters only hide rows.  The filtered view holds exactly the
    rows of the scored table that pass every filter that is set, in the
    order of the scored table and each with the [choose_order] it has
    there: positions are not renumbered, so they increase strictly down
    the view and may skip values. *)
Theorem row_filters_hide_without_renumbering :
  forall (Department : MasterRow -> option string) df ct bt dt d_w dep_w b_w c_w
         (sel_districts sel_departments sel_branches sel_colleges : list string),
  exists out,
    apply_tier_filtering_and_scoring df ct bt dt d_w dep_w b_w c_w = Some out /\
    let filtered :=
      app_filtered Department out
        sel_districts sel_departments sel_branches sel_colleges in
    (forall o, In o filtered <->
       In o out /\
       passes (District (row (scored o))) sel_districts /\
       passes (Department (row (scored o))) sel_departments /\
       passes (Branch_Name (row (scored o))) sel_branches /\
       passes (College_Name (row (scored o))) sel_colleges) /\
    StronglySorted (fun a b => choose_order a < choose_order b) filtered /\
    (length filtered <= length out)%nat.
Proof.
  intros Department df ct bt dt d_w dep_w b_w c_w sd sdep sb sc.
  destruct (pipeline_rows df ct bt dt d_w dep_w b_w c_w) as (ws & _ & Hout).
  eexists. split; [exact Hout|].
  set (out := number_rows _). unfold app_filtered. cbv zeta.
  split; [|split].
  - intros o. rewrite !in_keep_selected. tauto.
  - repeat apply keep_selected_sorted. apply number_rows_increasing.
  - apply NoDup_incl_length.
    + assert (Hnd : NoDup out).
      { apply (NoDup_map_inv choose_order). unfold out.
        rewrite choose_order_number_rows. unfold range1.
        apply Finite.Injective_map_NoDup_in; [|apply seq_NoDup].
        intros x y _ _ H. lia. }
      assert (Hkeep : forall col sel l, NoDup l -> NoDup (keep_selected col sel l)).
      { intros col sel l H. unfold keep_selected. destruct sel; [exact H|].
        apply NoDup_filter. exact H. }
      repeat apply Hkeep. exact Hnd.
    + intros o Ho. rewrite !in_keep_selected in Ho. tauto.
Qed.

(* ================================================================= *)
(** ** The page: summary panels *)

Lemma name_eqb_eq a b : name_eqb a b = true <-> a = b.
Proof.
  destruct a as [x|], b as [y|]; simpl; try (split; [discriminate|congruence]).
  - rewrite String.eqb_eq. split; congruence.
  - tauto.
Qed.

Lemma seen_In x seen : existsb (name_eqb x) seen = true <-> In x seen.
Proof.
  rewrite existsb_exists. split.
  - intros (y & Hy & E). apply name_eqb_eq in E. subst. exact Hy.
  - intros H. exists x. split; [exact H|apply name_eqb_eq; reflexivity].
Qed.

Lemma in_drop_duplicates seen l x :
  In x (drop_duplicates seen l) -> In x l /\ ~ In (pr_name x) seen.
Proof.
  revert seen. induction l as [|y l IH]; intros seen; simpl; [tauto|].
  destruct (existsb (name_eqb (pr_name y)) seen) eqn:E.
  - intros H. destruct (IH seen H). tauto.
  - intros [<-|H].
    + split; [auto|]. rewrite <- seen_In. congruence.
    + destruct (IH _ H) as (H1 & H2). split; [auto|].
      intros Hs. apply H2. right. exact Hs.
Qed.

Lemma NoDup_drop_duplicates seen l : NoDup (map pr_name (drop_duplicates seen l)).
Proof.
  revert seen. induction l as [|y l IH]; intros seen; simpl; [constructor|].
  destruct (existsb (name_eqb (pr_name y)) seen); [apply IH|].
  simpl. constructor; [|apply IH].
  intros H. apply in_map_iff in H. destruct H as (x & E & Hx).
  apply in_drop_duplicates in Hx. destruct Hx as (_ & Hx). apply Hx.
  left. congruence.
Qed.

Lemma drop_duplicates_keeps_names seen l x :
  In x l -> In (pr_name x) seen \/
            exists y, In y (drop_duplicates seen l) /\ pr_name y = pr_name x.
Proof.
  revert seen. induction l as [|y l IH]; intros seen; simpl; [tauto|].
  intros [->|Hx].
  - destruct (existsb (name_eqb (pr_name x)) seen) eqn:E.
    + left. apply seen_In. exact E.
    + right. exists x. simpl. auto.
  - destruct (existsb (name_eqb (pr_name y)) seen) eqn:E.
    + apply IH. exact Hx.
    + destruct (IH (pr_name y :: seen) Hx) as [[E'|Hs]|(z & Hz & Ez)].
      * right. exists y. simpl. auto.
      * left. exact Hs.
      * right. exists z. simpl. auto.
Qed.

Lemma firstn_In_l {A} n (l : list A) x : In x (firstn n l) -> In x l.
Proof.
  intros H. rewrite <- (firstn_skipn n l). apply in_or_app. left. exact H.
Qed.

Lemma firstn_NoDup_l {A} n (l : list A) : NoDup l -> NoDup (firstn n l).
Proof.
  intros H. rewrite <- (firstn_skipn n l) in H. exact (NoDup_app_remove_r _ _ H).
Qed.

Lemma firstn_sorted {A} (R : A -> A -> Prop) n l :
  StronglySorted R l -> StronglySorted R (firstn n l).
Proof.
  intros H. revert n. induction H as [|x l Hs IH Hx]; intros [|n]; simpl;
    try constructor.
  - apply IH.
  - rewrite Forall_forall in *. intros y Hy. apply Hx. exact (firstn_In_l _ _ _ Hy).
Qed.

(** X18. A summary panel, whichever sort is used: it has at most 10 rows, no
    name twice, the rows in rank order; every row is the name, rank and
    best cutoff of a scored row whose tier is Top; and unless the panel
    is full, the name of every Top row is listed. *)
Theorem summary_panel_lists_top_entities :
  forall (sort_by_rank : list PanelRow -> list PanelRow)
         (name : MasterRow -> option string) (rt : MasterRow -> option RankRow)
         (scored_df : list OrderedRow),
    sorts_by_rank sort_by_rank ->
    let panel := top_panel sort_by_rank name rt scored_df in
    (length panel <= 10)%nat /\
    NoDup (map pr_name panel) /\
    StronglySorted rank_not_after panel /\
    (forall p, In p panel ->
       exists o, In o scored_df /\
                 option_map tier (rt (row (scored o))) = Some "Top" /\
                 p = panel_row_of name rt o) /\
    ((length panel < 10)%nat ->
     forall o, In o scored_df ->
       option_map tier (rt (row (scored o))) = Some "Top" ->
       exists p, In p panel /\ pr_name p = name (row (scored o))).
Proof.
  intros sort name rt df (Hperm & Hsorted) panel.
  unfold top_panel in panel. cbv zeta in panel.
  set (top := filter (fun o => is_top (option_map tier (rt (row (scored o))))) df)
    in panel.
  set (cols := map (panel_row_of name rt) top).
  change (map _ top) with cols in panel.
  set (dd := drop_duplicates [] cols) in panel.
  assert (Htop : forall o, In o top <->
                   In o df /\ option_map tier (rt (row (scored o))) = Some "Top").
  { intros o. unfold top. rewrite filter_In. unfold is_top.
    destruct (option_map tier (rt (row (scored o)))) as [t|].
    - rewrite String.eqb_eq. split; intros (H1 & H2); split; congruence.
    - split; intros (H1 & H2); discriminate. }
  split; [apply firstn_le_length|]. split; [|split; [|split]].
  - unfold panel. rewrite <- firstn_map. apply firstn_NoDup_l.
    apply (Permutation_NoDup (Permutation_sym (Permutation_map pr_name (Hperm dd)))).
    apply NoDup_drop_duplicates.
  - apply firstn_sorted. apply Hsorted.
  - intros p Hp. apply firstn_In_l in Hp.
    apply (Permutation_in _ (Hperm dd)), in_drop_duplicates in Hp.
    destruct Hp as (Hp & _). apply in_map_iff in Hp.
    destruct Hp as (o & <- & Ho). apply Htop in Ho. exists o. tauto.
  - intros Hlen o Ho Ht.
    assert (Hall : panel = sort dd).
    { unfold panel. apply firstn_all2.
      unfold panel in Hlen. rewrite length_firstn in Hlen. lia. }
    destruct (drop_duplicates_keeps_names [] cols (panel_row_of name rt o))
      as [[]|(y & Hy & Ey)].
    { apply in_map. apply Htop. auto. }
    exists y. split; [|exact Ey].
    rewrite Hall. apply (Permutation_in _ (Permutation_sym (Hperm dd))). exact Hy.
Qed.

Lemma ex_sort_sorts_by_rank : sorts_by_rank ex_sort.
Proof.
  assert (Ho : OrderCmp (on_key pr_rank (na_last (ascending Z.compare)))).
  { apply on_key_order. apply na_last_order. apply Z_compare_order. }
  split; intros l; unfold ex_sort.
  - apply stable_sort_perm.
  - pose proof (stable_sort_sorted _ (leb_of_total _) (leb_of_trans _) l) as H.
    induction H as [|x l' Hs IH Hx]; constructor; [exact IH|].
    eapply Forall_impl; [|exact Hx]. intros b. unfold leb_of, on_key, rank_not_after.
    pose proof (na_last_asc_spec (pr_rank x) (pr_rank b)) as Hspec.
    destruct (na_last (ascending Z.compare) (pr_rank x) (pr_rank b));
      [auto|auto|discriminate].
Qed.

Example ex_top_districts :
  map (fun p => (pr_name p, pr_rank p)) (top_districts ex_sort ex_scored_five) =
    [(Some "D1", Some 1)].
Proof. vm_compute. reflexivity. Qed.

Lemma summary_panel_lists_top_entities_witness :
  sorts_by_rank ex_sort /\
  NoDup (map pr_name (top_districts ex_sort ex_scored_five)).
Proof.
  split; [exact ex_sort_sorts_by_rank|].
  exact (proj1 (proj2 (summary_panel_lists_top_entities ex_sort District district_rt
                         ex_scored_five ex_sort_sorts_by_rank))).
Defined.

(* ================================================================= *)
(** ** Scoring the scored table again *)

Lemma col_max_perm s s' : Permutation s s' -> col_max s = col_max s'.
Proof.
  induction 1 as [|x s s' _ IH|x y s|s s' s'' _ IH1 _ IH2].
  - reflexivity.
  - simpl. rewrite IH. reflexivity.
  - destruct x as [x|], y as [y|]; simpl; try reflexivity.
    destruct (col_max s); f_equal; lia.
  - congruence.
Qed.

Lemma final_of_perm ws df df' r :
  Permutation df df' -> final_of ws df r = final_of ws df' r.
Proof.
  intros H. destruct ws as [[[w1 w2] w3] w4]. unfold final_of.
  rewrite (col_max_perm _ _ (Permutation_map district_rank H)).
  rewrite (col_max_perm _ _ (Permutation_map department_rank H)).
  rewrite (col_max_perm _ _ (Permutation_map branch_rank H)).
  rewrite (col_max_perm _ _ (Permutation_map college_rank H)).
  reflexivity.
Qed.

Lemma insert_below {A} (le : A -> A -> bool) x l :
  Forall (fun y => le x y = true) l -> insert le x l = x :: l.
Proof.
  intros H. destruct l as [|y l]; [reflexivity|].
  simpl. inversion H as [|? ? Hy _]; subst. rewrite Hy. reflexivity.
Qed.

Lemma stable_sort_of_sorted {A} (le : A -> A -> bool) l :
  StronglySorted (fun a b => le a b = true) l -> stable_sort le l = l.
Proof.
  induction 1 as [|x l Hs IH Hx]; [reflexivity|].
  cbn [stable_sort fold_right]. fold (stable_sort le l).
  rewrite IH. apply insert_below. exact Hx.
Qed.

(** X15. Scoring is idempotent: feeding the master rows of the output, in
    output order, to the pipeline with the same parameters returns the
    same output. *)
Theorem scoring_the_output_again_changes_nothing :
  forall df ct bt dt d_w dep_w b_w c_w,
  exists out,
    apply_tier_filtering_and_scoring df ct bt dt d_w dep_w b_w c_w = Some out /\
    apply_tier_filtering_and_scoring (map (fun o => row (scored o)) out)
      ct bt dt d_w dep_w b_w c_w = Some out.
Proof.
  intros df ct bt dt d_w dep_w b_w c_w.
  destruct (pipeline_rows df ct bt dt d_w dep_w b_w c_w) as (ws & Hws & Hout).
  eexists. split; [exact Hout|].
  set (S := sort_values (map (score_row ct bt dt ws df) df)).
  rewrite <- (map_map scored row), scored_number_rows.
  destruct (pipeline_rows (map row S) ct bt dt d_w dep_w b_w c_w)
    as (ws' & Hws' & Hout').
  assert (ws' = ws) by congruence. subst ws'.
  rewrite Hout'. do 2 f_equal.
  assert (Hperm : Permutation (map row S) df).
  { unfold S. rewrite (sort_values_perm _), row_score_row. reflexivity. }
  assert (Hsame : map (score_row ct bt dt ws (map row S)) (map row S) = S).
  { rewrite map_map. transitivity (map (fun x => x) S); [|apply map_id].
    apply map_ext_in. intros x Hx. unfold S in Hx.
    apply (Permutation_in _ (sort_values_perm _)), in_map_iff in Hx.
    destruct Hx as (r & <- & _). unfold score_row. simpl.
    rewrite (final_of_perm ws _ _ r Hperm). reflexivity. }
  rewrite Hsame. unfold sort_values. apply stable_sort_of_sorted.
  apply (sort_values_sorted (map (score_row ct bt dt ws df) df)).
Qed.
